(** * repo_management.files: archive reader, identifier resolver, archive writer

    A shallow embedding of [repo_management/files.py] and a verification of
    what the design document says about it.

    Conventions of the embedding.
    - A Python [str] is a [string]; it holds the UTF-8 code units of the text,
      so [str.encode()] is the list of its bytes and [len] of the encoding is
      the length of that list.  The characters the code looks at ([-], [/],
      the letters of [desc] and [files], the newline) are ASCII and never
      occur inside a multi-byte sequence.
    - A Python [int] is a [Z].
    - A coroutine or function that can raise returns an [outcome]; an
      asynchronous generator is the list of the values it yields together
      with the exception that ends it, if any.
    - The tar archive opened for writing and the wall clock are threaded
      explicitly through a state-and-error monad. *)

From Stdlib Require Import List String Ascii ZArith NArith Bool Arith Lia.
From Stdlib.Strings Require Import Byte.
From Stdlib Require Import Sorted Permutation OrdersEx RelationClasses.
Import ListNotations.

Local Open Scope list_scope.
Local Open Scope string_scope.

(** ** Python run-time pieces used by the module *)

Module Py.

(** Exceptions.  [IdentifierFormatError] is the name the design document
    uses for a malformed directory name; the other constructors are the
    built-in exceptions the modelled library calls can raise, and
    [RenderError] stands for whatever a descriptor template raises. *)
Inductive exception : Type :=
| ValueError
| KeyError
| AttributeError
| OSError
| UnicodeDecodeError
| RenderError
| IdentifierFormatError.

Inductive outcome (A : Type) : Type :=
| Returns (a : A)
| Raises (e : exception).
Arguments Returns {A} a.
Arguments Raises {A} e.

Definition is_returns {A : Type} (o : outcome A) : bool :=
  match o with Returns _ => true | Raises _ => false end.

Definition newline : string := String (ascii_of_nat 10) EmptyString.

(** *** The fragment of [re] the module uses

    The three patterns of the module, ["(/desc|/files)$"], ["(/desc)$"] and
    ["(/files)$"], are a group of literal alternatives followed by [$].
    [$] matches at the end of the string and also just before a newline
    that is the last character of the string. *)
Record pattern : Type := Anchored { alternatives : list string }.

(** [match_here alts s]: the pattern matches at the first position of [s].
    The alternatives are tried in order, each followed by [$]; the result
    is what the match leaves unconsumed, the empty string or the final
    newline. *)
Fixpoint match_here (alts : list string) (s : string) : option string :=
  match alts with
  | [] => None
  | a :: rest =>
      if (s =? a)%string then Some EmptyString
      else if (s =? a ++ newline)%string then Some newline
      else match_here rest s
  end.

(** [re.search(p, s)] as a truth value: scan the positions left to right. *)
Fixpoint re_search (p : pattern) (s : string) : bool :=
  match match_here (alternatives p) s with
  | Some _ => true
  | None =>
      match s with
      | EmptyString => false
      | String _ s' => re_search p s'
      end
  end.

(** [re.sub(p, "", s)]: the leftmost match is removed.  The alternatives
    of the module's patterns start with [/], so no second match exists in
    what an anchored match leaves (nothing, or one newline). *)
Fixpoint re_sub_empty (p : pattern) (s : string) : string :=
  match match_here (alternatives p) s with
  | Some rest => rest
  | None =>
      match s with
      | EmptyString => EmptyString
      | String c s' => String c (re_sub_empty p s')
      end
  end.

(** [re.split("(c)", s)] for a one-character pattern [c] in a capturing
    group: the pieces between the occurrences of [c], with every
    occurrence kept as a token of its own. *)
Fixpoint re_split_keep (c : ascii) (s : string) : list string :=
  match s with
  | EmptyString => [EmptyString]
  | String a s' =>
      if Ascii.eqb a c then EmptyString :: String c EmptyString :: re_split_keep c s'
      else
        match re_split_keep c s' with
        | t :: ts => String a t :: ts
        | [] => [String a EmptyString]
        end
  end.

(** The slice [l[:-k]]: all but the last [k] elements, and the empty list
    when [l] has no more than [k] elements; a slice never raises. *)
Definition slice_to_neg {A : Type} (k : nat) (l : list A) : list A :=
  firstn (List.length l - k) l.

(** ["".join(l)] *)
Definition join (l : list string) : string := String.concat EmptyString l.

(** [s.encode()] and [len] of [bytes]. *)
Definition encode (s : string) : list byte := list_byte_of_string s.
Definition len {A : Type} (l : list A) : Z := Z.of_nat (List.length l).

(** [b.decode("utf-8")]: the strict decoder; it accepts exactly the
    well-formed UTF-8 sequences (no overlong forms, no surrogates, nothing
    above U+10FFFF). *)
Definition between (lo hi b : N) : bool := ((lo <=? b) && (b <=? hi))%N.
Definition continuation (b : N) : bool := between 128 191 b.

Fixpoint utf8_wf (bs : list N) : bool :=
  match bs with
  | [] => true
  | b0 :: r0 =>
      if (b0 <? 128)%N then utf8_wf r0
      else if between 194 223 b0 then
        match r0 with
        | b1 :: r1 => continuation b1 && utf8_wf r1
        | _ => false
        end
      else if between 224 239 b0 then
        match r0 with
        | b1 :: b2 :: r2 =>
            (if (b0 =? 224)%N then between 160 191 b1
             else if (b0 =? 237)%N then between 128 159 b1
             else continuation b1)
            && continuation b2 && utf8_wf r2
        | _ => false
        end
      else if between 240 244 b0 then
        match r0 with
        | b1 :: b2 :: b3 :: r3 =>
            (if (b0 =? 240)%N then between 144 191 b1
             else if (b0 =? 244)%N then between 128 143 b1
             else continuation b1)
            && continuation b2 && continuation b3 && utf8_wf r3
        | _ => false
        end
      else false
  end.

Definition decode (bs : list byte) : outcome string :=
  if utf8_wf (map Byte.to_N bs) then Returns (string_of_list_byte bs)
  else Raises UnicodeDecodeError.

(** [int(s, base=8)] on a bare octal literal, one or more of the digits
    [0] to [7].  The signs, [0o] prefixes, digit-group underscores and
    surrounding blanks that [int] tolerates as well are outside the
    model, which answers [ValueError] for them. *)
Definition octal_digit (a : ascii) : option Z :=
  let n := nat_of_ascii a in
  if (48 <=? n)%nat && (n <=? 55)%nat then Some (Z.of_nat (n - 48)) else None.

Fixpoint octal_digits (acc : Z) (s : string) : option Z :=
  match s with
  | EmptyString => Some acc
  | String a s' =>
      match octal_digit a with
      | Some d => octal_digits (8 * acc + d) s'
      | None => None
      end
  end.

Definition int_base8 (s : string) : outcome Z :=
  match s with
  | EmptyString => Raises ValueError
  | _ => match octal_digits 0 s with
         | Some z => Returns z
         | None => Raises ValueError
         end
  end.

(** [sorted(l)]: a stable sort by the order of the elements, here by
    insertion; [leb x y] says that [y < x] does not hold. *)
Fixpoint insert_sorted {A : Type} (leb : A -> A -> bool) (x : A) (l : list A)
  : list A :=
  match l with
  | [] => [x]
  | y :: l' => if leb x y then x :: y :: l' else y :: insert_sorted leb x l'
  end.

Definition sorted {A : Type} (leb : A -> A -> bool) (l : list A) : list A :=
  fold_right (insert_sorted leb) [] l.

End Py.
Import Py.

(** *** Monads: plain errors, and errors over the state of the world *)

Definition obind {A B : Type} (o : outcome A) (k : A -> outcome B) : outcome B :=
  match o with
  | Returns a => k a
  | Raises e => Raises e
  end.

Declare Scope outcome_scope.
Delimit Scope outcome_scope with outcome.
Notation "x <- c ;; k" := (obind c (fun x => k))
  (at level 61, c at next level, right associativity) : outcome_scope.

(** ** The [tarfile] objects the module drives *)

Module tarfile.

(** Member types.  Hard and symbolic links are left out: a repository
    database holds directories and regular files, and a link would make
    [extractfile] chase its target. *)
Inductive tartype : Type :=
| REGTYPE | AREGTYPE | DIRTYPE | CHRTYPE | BLKTYPE | FIFOTYPE | CONTTYPE.

Record TarInfo : Type := mkTarInfo {
  name : string;
  mode : Z;
  uid : Z;
  gid : Z;
  size : Z;
  mtime : Z;
  type : tartype;
  linkname : string;
  uname : string;
  gname : string
}.

(** [tarfile.TarInfo(name)]: a regular file of size 0, mode 0o644, owned
    by uid and gid 0 with empty owner names, dated 0. *)
Definition new (n : string) : TarInfo :=
  mkTarInfo n 420 0 0 0 0 REGTYPE EmptyString EmptyString EmptyString.

(** Attribute assignments. *)
Definition set_type (t : TarInfo) (v : tartype) : TarInfo :=
  mkTarInfo (name t) (mode t) (uid t) (gid t) (size t) (mtime t) v
            (linkname t) (uname t) (gname t).
Definition set_mtime (t : TarInfo) (v : Z) : TarInfo :=
  mkTarInfo (name t) (mode t) (uid t) (gid t) (size t) v (type t)
            (linkname t) (uname t) (gname t).
Definition set_uname (t : TarInfo) (v : string) : TarInfo :=
  mkTarInfo (name t) (mode t) (uid t) (gid t) (size t) (mtime t) (type t)
            (linkname t) v (gname t).
Definition set_gname (t : TarInfo) (v : string) : TarInfo :=
  mkTarInfo (name t) (mode t) (uid t) (gid t) (size t) (mtime t) (type t)
            (linkname t) (uname t) v.
Definition set_mode (t : TarInfo) (v : Z) : TarInfo :=
  mkTarInfo (name t) v (uid t) (gid t) (size t) (mtime t) (type t)
            (linkname t) (uname t) (gname t).
Definition set_size (t : TarInfo) (v : Z) : TarInfo :=
  mkTarInfo (name t) (mode t) (uid t) (gid t) v (mtime t) (type t)
            (linkname t) (uname t) (gname t).

Definition isreg (t : TarInfo) : bool :=
  match type t with
  | REGTYPE | AREGTYPE | CONTTYPE => true
  | _ => false
  end.

Definition isdir (t : TarInfo) : bool :=
  match type t with DIRTYPE => true | _ => false end.

(** A member is its header and the bytes stored after it; an archive is
    its members in the order they were added. *)
Record TarMember : Type := mkTarMember {
  info : TarInfo;
  payload : list byte
}.

Definition TarFile : Type := list TarMember.

Definition getnames (t : TarFile) : list string :=
  map (fun m => name (info m)) t.

(** [s.rstrip("/")], which [getmember] applies to the name it is given; it
    changes no name that ends in a character other than [/]. *)
Fixpoint rstrip_slash (s : string) : string :=
  match s with
  | EmptyString => EmptyString
  | String c s' =>
      match rstrip_slash s' with
      | EmptyString => if Ascii.eqb c "/" then EmptyString else String c EmptyString
      | r => String c r
      end
  end.

(** [_getmember]: the members are searched from the last one back, so of
    several members of one name the last one added is found. *)
Fixpoint _getmember (t : TarFile) (n : string) : option TarMember :=
  match t with
  | [] => None
  | m :: rest =>
      match _getmember rest n with
      | Some m' => Some m'
      | None => if (name (info m) =? n)%string then Some m else None
      end
  end.

Definition getmember (t : TarFile) (n : string) : outcome TarMember :=
  match _getmember t (rstrip_slash n) with
  | Some m => Returns m
  | None => Raises KeyError
  end.

(** [extractfile(name)]: the content of a regular member, [None] for a
    member that is not a file. *)
Definition extractfile (t : TarFile) (n : string) : outcome (option (list byte)) :=
  (m <- getmember t n ;;
   if isreg (info m) then Returns (Some (payload m)) else Returns None)%outcome.

(** The name written in the header: a directory gets a closing [/]. *)
Fixpoint endswith_slash (s : string) : bool :=
  match s with
  | EmptyString => false
  | String c EmptyString => Ascii.eqb c "/"
  | String _ s' => endswith_slash s'
  end.

Definition header_name (t : TarInfo) : string :=
  if isdir t && negb (endswith_slash (name t)) then name t ++ "/" else name t.

(** [addfile(tarinfo, fileobj)]: the header is written, then exactly
    [tarinfo.size] bytes are copied from [fileobj] when one is given;
    running out of bytes before that is an [OSError]. *)
Definition addfile (t : TarFile) (ti : TarInfo) (fileobj : option (list byte))
  : outcome TarFile :=
  match fileobj with
  | None => Returns (t ++ [mkTarMember ti []])%list
  | Some bytes =>
      if (len bytes <? size ti)%Z then Raises OSError
      else Returns (t ++ [mkTarMember ti (firstn (Z.to_nat (size ti)) bytes)])%list
  end.

End tarfile.

(** ** The state of the world while an archive is written

    [clock k] is what [int(time.time())] answers the [k]-th time it is
    asked; [reads] counts the questions so far; [db] is the archive open
    for writing. *)
Record World : Type := mkWorld {
  clock : nat -> Z;
  reads : nat;
  db : tarfile.TarFile
}.

Definition M (A : Type) : Type := World -> outcome (A * World).

Definition ret {A : Type} (a : A) : M A := fun w => Returns (a, w).

Definition mbind {A B : Type} (c : M A) (k : A -> M B) : M B :=
  fun w =>
    match c w with
    | Returns (a, w') => k a w'
    | Raises e => Raises e
    end.

Definition lift {A : Type} (o : outcome A) : M A :=
  fun w =>
    match o with
    | Returns a => Returns (a, w)
    | Raises e => Raises e
    end.

Declare Scope world_scope.
Delimit Scope world_scope with world.
Notation "x <- c ;; k" := (mbind c (fun x => k))
  (at level 61, c at next level, right associativity) : world_scope.
Notation "c ;; k" := (mbind c (fun _ => k))
  (at level 61, right associativity) : world_scope.

(** [int(time.time())] *)
Definition int_time_time : M Z :=
  fun w => Returns (clock w (reads w), mkWorld (clock w) (S (reads w)) (db w)).

(** [db.addfile(tarinfo, fileobj)] *)
Definition db_addfile (ti : tarfile.TarInfo) (fileobj : option (list byte)) : M unit :=
  fun w =>
    match tarfile.addfile (db w) ti fileobj with
    | Returns t => Returns (tt, mkWorld (clock w) (reads w) t)
    | Raises e => Raises e
    end.

(** [for x in l: body(x)] *)
Fixpoint for_each {A : Type} (body : A -> M unit) (l : list A) : M unit :=
  match l with
  | [] => ret tt
  | x :: rest => (body x ;; for_each body rest)%world
  end.

(** ** The collaborators of [files.py] inside the repository *)

Module defaults.

(** Modelled from the spec: [defaults.py] is not part of the source at
    hand.  [RepoDbMemberType] is the kind of an archive member, one of
    DESC, FILES and UNKNOWN, under the names [files.py] uses. *)
Module RepoDbMemberType.
Inductive t : Type := UNKNOWN | DESC | FILES.
End RepoDbMemberType.

(** Modelled from the spec: the database kind, desc-only or desc+files.
    [files.py] names the second one [FILES] and calls the first the default
    database. *)
Module RepoDbType.
Inductive t : Type := DEFAULT | FILES.

Definition eqb (a b : t) : bool :=
  match a, b with
  | DEFAULT, DEFAULT | FILES, FILES => true
  | _, _ => false
  end.
End RepoDbType.

(** Modelled from the spec: the fixed, schema-defined constants for the
    owner, the group and the permission bits of what is written.  Their
    values are not in the source at hand, so they are the fields of a
    record every writer function takes; the two modes are text, since
    [files.py] reads them with [int(..., base=8)]. *)
Record constants : Type := mkConstants {
  DB_USER : string;
  DB_GROUP : string;
  DB_DIR_MODE : string;
  DB_FILE_MODE : string
}.

End defaults.

Module models.

(** Modelled from the spec: [models.py] is not part of the source at hand.
    A FileList is the ordered sequence of the paths a package owns. *)
Module Files.
Record t : Type := mk { files : list string }.
End Files.

(** Modelled from the spec: the desc record of one package: its name, the
    version it shares with its group, and the remaining metadata as
    field keys with their values. *)
Module PackageDesc.
Record t : Type := mk {
  name : string;
  version : string;
  metadata : list (string * list string)
}.
End PackageDesc.

(** Modelled from the spec: a Package of a group: a name, metadata, and an
    optional FileList. *)
Module OutputPackage.
Record t : Type := mk {
  name : string;
  metadata : list (string * list string);
  files : option Files.t
}.
End OutputPackage.

(** Modelled from the spec: a PackageGroup (pkgbase document): group
    identifier, shared version, ordered collection of Packages.
    [get_packages_as_models] pairs, for each package in that order, its
    desc model (carrying the group's version) with its files model. *)
Module OutputPackageBase.
Record t : Type := mk {
  base : string;
  version : string;
  packages : list OutputPackage.t
}.

Definition get_packages_as_models (self : t)
  : list (PackageDesc.t * option Files.t) :=
  map (fun p =>
         (PackageDesc.mk (OutputPackage.name p) (version self) (OutputPackage.metadata p),
          OutputPackage.files p))
      (packages self).
End OutputPackageBase.

(** Modelled from the spec: an ArchiveMember as the reader yields it: the
    member kind, the resolved package name, the decoded text. *)
Module RepoDbMemberData.
Record t : Type := mk {
  member_type : defaults.RepoDbMemberType.t;
  name : string;
  data : string
}.
End RepoDbMemberData.

End models.

Module convert.

(** Modelled from the spec: the Record Renderer ([convert.py] is not part
    of the source at hand).  Each method renders a model into a fresh
    text stream and may fail; the text is what [getvalue()] then gives. *)
Record RepoDbFile : Type := mkRepoDbFile {
  render_desc_template : models.PackageDesc.t -> outcome string;
  render_files_template : option models.Files.t -> outcome string
}.

End convert.

(** ** [pathlib] paths

    A path is the list of its parts, and two paths compare as these lists
    do: part by part, the parts as strings, a path coming before the
    paths it is a proper beginning of. *)

Module pathlib.

Definition Path : Type := list string.

Fixpoint compare (p q : Path) : comparison :=
  match p, q with
  | [], [] => Eq
  | [], _ :: _ => Lt
  | _ :: _, [] => Gt
  | a :: p', b :: q' =>
      match String_as_OT.compare a b with
      | Eq => compare p' q'
      | Lt => Lt
      | Gt => Gt
      end
  end.

(** [not (q < p)] *)
Definition leb (p q : Path) : bool :=
  match compare p q with
  | Gt => false
  | _ => true
  end.

End pathlib.

(** ** [repo_management/errors.py], as [files.py] uses it

    The exceptions are kept without their messages. *)

Module errors.

Inductive t : Type :=
| RepoManagementFileError
| RepoManagementFileNotFoundError
| RepoManagementValidationError.

End errors.

(** ** [repo_management/files.py] *)

Module files.
Import defaults models.

Definition hyphen : ascii := "-"%char.

(** [_extract_db_member_package_name] *)
Definition _extract_db_member_package_name (name : string) : outcome string :=
  Returns
    (join
       (slice_to_neg 4
          (re_split_keep hyphen
             (re_sub_empty (Anchored ["/desc"; "/files"]) name)))).

(** The default of the [regex] parameter, ["(/desc|/files)$"]. *)
Definition default_regex : pattern := Anchored ["/desc"; "/files"].

(** The kind chosen in the loop body of [_db_file_member_as_model]. *)
Definition file_type_of (name : string) : RepoDbMemberType.t :=
  let file_type := RepoDbMemberType.UNKNOWN in
  let file_type :=
    if re_search (Anchored ["/desc"]) name then RepoDbMemberType.DESC else file_type in
  let file_type :=
    if re_search (Anchored ["/files"]) name then RepoDbMemberType.FILES else file_type in
  file_type.

(** [db_file.extractfile(name).read()], then [.decode("utf-8")]: calling
    [read] on the [None] of a member that is not a file is an
    [AttributeError]. *)
Definition read_member_text (db_file : tarfile.TarFile) (name : string)
  : outcome string :=
  (f <- tarfile.extractfile db_file name ;;
   raw <- match f with
          | Some bytes => Returns bytes
          | None => Raises AttributeError
          end ;;
   decode raw)%outcome.

(** One turn of the loop of [_db_file_member_as_model]: the value yielded
    for [name], or the exception raised while building it. *)
Definition member_as_model (db_file : tarfile.TarFile) (name : string)
  : outcome RepoDbMemberData.t :=
  (let file_type := file_type_of name in
   pkgname <- _extract_db_member_package_name name ;;
   text <- read_member_text db_file name ;;
   Returns (RepoDbMemberData.mk file_type pkgname text))%outcome.

(** The generator run to its end: the values yielded, and the exception
    that stopped it if one did. *)
Fixpoint yield_each (db_file : tarfile.TarFile) (names : list string)
  : list RepoDbMemberData.t * option exception :=
  match names with
  | [] => ([], None)
  | name :: rest =>
      match member_as_model db_file name with
      | Raises e => ([], Some e)
      | Returns m =>
          let (ms, e) := yield_each db_file rest in (m :: ms, e)
      end
  end.

(** [_db_file_member_as_model] *)
Definition _db_file_member_as_model (db_file : tarfile.TarFile) (regex : pattern)
  : list RepoDbMemberData.t * option exception :=
  yield_each db_file (filter (re_search regex) (tarfile.getnames db_file)).

(** The body of the loop of [_stream_package_base_to_db] for one pair of
    models. *)
Definition stream_package (c : constants) (version : string)
    (repodbfile : convert.RepoDbFile) (db_type : RepoDbType.t)
    (pair : PackageDesc.t * option Files.t) : M unit :=
  (let (desc_model, files_model) := pair in
   let dirname := PackageDesc.name desc_model ++ "-" ++ version in
   let directory := tarfile.new dirname in
   let directory := tarfile.set_type directory tarfile.DIRTYPE in
   now <- int_time_time ;;
   let directory := tarfile.set_mtime directory now in
   let directory := tarfile.set_uname directory (DB_USER c) in
   let directory := tarfile.set_gname directory (DB_GROUP c) in
   dir_mode <- lift (int_base8 (DB_DIR_MODE c)) ;;
   let directory := tarfile.set_mode directory dir_mode in
   db_addfile directory None ;;
   desc_content <- lift (convert.render_desc_template repodbfile desc_model) ;;
   let desc_file := tarfile.new (dirname ++ "/desc") in
   let desc_file := tarfile.set_size desc_file (len (encode desc_content)) in
   now <- int_time_time ;;
   let desc_file := tarfile.set_mtime desc_file now in
   let desc_file := tarfile.set_uname desc_file (DB_USER c) in
   let desc_file := tarfile.set_gname desc_file (DB_GROUP c) in
   file_mode <- lift (int_base8 (DB_FILE_MODE c)) ;;
   let desc_file := tarfile.set_mode desc_file file_mode in
   db_addfile desc_file (Some (encode desc_content)) ;;
   if RepoDbType.eqb db_type RepoDbType.FILES then
     files_content <- lift (convert.render_files_template repodbfile files_model) ;;
     let files_file := tarfile.new (dirname ++ "/files") in
     let files_file := tarfile.set_size files_file (len (encode files_content)) in
     now <- int_time_time ;;
     let files_file := tarfile.set_mtime files_file now in
     let files_file := tarfile.set_uname files_file (DB_USER c) in
     let files_file := tarfile.set_gname files_file (DB_GROUP c) in
     file_mode <- lift (int_base8 (DB_FILE_MODE c)) ;;
     let files_file := tarfile.set_mode files_file file_mode in
     db_addfile files_file (Some (encode files_content))
   else ret tt)%world.

(** [_stream_package_base_to_db]; the archive [db] it streams to is the
    one of the world. *)
Definition _stream_package_base_to_db (c : constants)
    (model : OutputPackageBase.t) (repodbfile : convert.RepoDbFile)
    (db_type : RepoDbType.t) : M unit :=
  for_each (stream_package c (OutputPackageBase.version model) repodbfile db_type)
           (OutputPackageBase.get_packages_as_models model).

(** Modelled from the spec: the Archive Writer over a sequence of groups
    (its caller is not part of the source at hand): each group is
    streamed, in the given order, into the archive. *)
Definition stream_package_bases_to_db (c : constants)
    (groups : list OutputPackageBase.t) (repodbfile : convert.RepoDbFile)
    (db_type : RepoDbType.t) : M unit :=
  for_each (fun model => _stream_package_base_to_db c model repodbfile db_type) groups.

(** A run of the writer from an archive just opened, under a given clock:
    the archive it leaves, or the exception. *)
Definition written (clk : nat -> Z) (c : constants)
    (groups : list OutputPackageBase.t) (repodbfile : convert.RepoDbFile)
    (db_type : RepoDbType.t) : outcome tarfile.TarFile :=
  match stream_package_bases_to_db c groups repodbfile db_type (mkWorld clk 0 []) with
  | Returns (_, w) => Returns (db w)
  | Raises e => Raises e
  end.

(** [_json_files_in_directory].  [glob path pattern] is what
    [path.glob(pattern)] finds in the file system; the generator is the
    list of the paths it yields with the exception that ends it, if any. *)
Definition _json_files_in_directory
    (glob : pathlib.Path -> string -> list pathlib.Path) (path : pathlib.Path)
  : list pathlib.Path * option errors.t :=
  let file_list := sorted pathlib.leb (glob path "*.json") in
  match file_list with
  | [] => ([], Some errors.RepoManagementFileNotFoundError)
  | _ :: _ => (file_list, None)
  end.

End files.

(** ** Vocabulary of the statements *)

Import defaults models files.

(** [c] occurs in [s]. *)
Fixpoint has_char (c : ascii) (s : string) : bool :=
  match s with
  | EmptyString => false
  | String a s' => Ascii.eqb a c || has_char c s'
  end.

(** The last character of a string. *)
Fixpoint last_char (s : string) : option ascii :=
  match s with
  | EmptyString => None
  | String a EmptyString => Some a
  | String _ s' => last_char s'
  end.

(** The directory name of a member path, and its hyphen-retaining tokens,
    as the resolver computes them. *)
Definition dirname_of (name : string) : string :=
  re_sub_empty (Anchored ["/desc"; "/files"]) name.

Definition tokens_of (name : string) : list string :=
  re_split_keep hyphen (dirname_of name).

(** [s] ends in [suffix]. *)
Definition ends_in (suffix s : string) : Prop :=
  exists p, s = p ++ suffix.

(** The member paths the default pattern of the reader lets through: the
    ones that end in [/desc] or [/files], and the ones that do so but for
    one closing newline. *)
Definition retained (n : string) : Prop :=
  ends_in "/desc" n \/ ends_in "/files" n
  \/ ends_in ("/desc" ++ newline) n \/ ends_in ("/files" ++ newline) n.

(** *** Vocabulary of the writer *)

(** The text a renderer produced. *)
Definition rendered (o : outcome string) : string :=
  match o with Returns text => text | Raises _ => "" end.

(** The two mode constants are octal literals, of values [dir_mode] and
    [file_mode]. *)
Definition modes_are (c : constants) (dir_mode file_mode : Z) : Prop :=
  int_base8 (DB_DIR_MODE c) = Returns dir_mode
  /\ int_base8 (DB_FILE_MODE c) = Returns file_mode.

(** The renderer succeeds on what the writer asks of it for one package:
    the desc model, and the files model when the database has file lists. *)
Definition renders (r : convert.RepoDbFile) (db_type : RepoDbType.t)
    (pair : PackageDesc.t * option Files.t) : bool :=
  is_returns (convert.render_desc_template r (fst pair))
  && (if RepoDbType.eqb db_type RepoDbType.FILES
      then is_returns (convert.render_files_template r (snd pair))
      else true).

(** The members one package adds, the clock being read for the [k]-th time
    at the first of them. *)
Definition dir_member (c : constants) (dir_mode : Z) (dirname : string) (now : Z)
  : tarfile.TarMember :=
  tarfile.mkTarMember
    (tarfile.mkTarInfo dirname dir_mode 0 0 0 now tarfile.DIRTYPE ""
                       (DB_USER c) (DB_GROUP c))
    [].

Definition file_member (c : constants) (file_mode : Z) (path : string) (now : Z)
    (text : string) : tarfile.TarMember :=
  tarfile.mkTarMember
    (tarfile.mkTarInfo path file_mode 0 0 (len (encode text)) now tarfile.REGTYPE ""
                       (DB_USER c) (DB_GROUP c))
    (encode text).

Definition reads_per_package (db_type : RepoDbType.t) : nat :=
  if RepoDbType.eqb db_type RepoDbType.FILES then 3 else 2.

Definition package_members (c : constants) (dir_mode file_mode : Z)
    (version : string) (r : convert.RepoDbFile) (db_type : RepoDbType.t)
    (clk : nat -> Z) (k : nat) (pair : PackageDesc.t * option Files.t)
  : list tarfile.TarMember :=
  let dirname := PackageDesc.name (fst pair) ++ "-" ++ version in
  dir_member c dir_mode dirname (clk k)
  :: file_member c file_mode (dirname ++ "/desc") (clk (S k))
       (rendered (convert.render_desc_template r (fst pair)))
  :: (if RepoDbType.eqb db_type RepoDbType.FILES
      then [file_member c file_mode (dirname ++ "/files") (clk (S (S k)))
              (rendered (convert.render_files_template r (snd pair)))]
      else []).

Fixpoint group_members (c : constants) (dir_mode file_mode : Z)
    (version : string) (r : convert.RepoDbFile) (db_type : RepoDbType.t)
    (clk : nat -> Z) (k : nat) (pairs : list (PackageDesc.t * option Files.t))
  : list tarfile.TarMember :=
  match pairs with
  | [] => []
  | p :: rest =>
      (package_members c dir_mode file_mode version r db_type clk k p
       ++ group_members c dir_mode file_mode version r db_type clk
            (k + reads_per_package db_type) rest)%list
  end.

(** What the design document lists for one package: the directory
    [<package-name>-<version>], then its desc member, then its files
    member if the database kind has file lists; each with its type and
    its content. *)
Definition documented_entries (r : convert.RepoDbFile) (db_type : RepoDbType.t)
    (version : string) (p : OutputPackage.t)
  : list (string * tarfile.tartype * list byte) :=
  let dirname := OutputPackage.name p ++ "-" ++ version in
  let desc_model :=
    PackageDesc.mk (OutputPackage.name p) version (OutputPackage.metadata p) in
  (dirname, tarfile.DIRTYPE, [])
  :: (dirname ++ "/desc", tarfile.REGTYPE,
      encode (rendered (convert.render_desc_template r desc_model)))
  :: match db_type with
     | RepoDbType.FILES =>
         [(dirname ++ "/files", tarfile.REGTYPE,
           encode (rendered (convert.render_files_template r (OutputPackage.files p))))]
     | RepoDbType.DEFAULT => []
     end.

Definition entry_of (m : tarfile.TarMember) : string * tarfile.tartype * list byte :=
  (tarfile.name (tarfile.info m), tarfile.type (tarfile.info m), tarfile.payload m).

(** The file members with the size their header records: path, size,
    content. *)
Definition sized_entry_of (m : tarfile.TarMember) : string * Z * list byte :=
  (tarfile.name (tarfile.info m), tarfile.size (tarfile.info m), tarfile.payload m).

Definition documented_files (r : convert.RepoDbFile) (db_type : RepoDbType.t)
    (version : string) (pair : PackageDesc.t * option Files.t)
  : list (string * Z * list byte) :=
  let dirname := PackageDesc.name (fst pair) ++ "-" ++ version in
  let desc_bytes := encode (rendered (convert.render_desc_template r (fst pair))) in
  let files_bytes := encode (rendered (convert.render_files_template r (snd pair))) in
  (dirname ++ "/desc", len desc_bytes, desc_bytes)
  :: match db_type with
     | RepoDbType.FILES => [(dirname ++ "/files", len files_bytes, files_bytes)]
     | RepoDbType.DEFAULT => []
     end.

(** A member seen through an observation [obs] of its modification time;
    two worlds that look alike under [obs]; two runs that end alike. *)
Definition observe (obs : Z -> Z) (m : tarfile.TarMember) : tarfile.TarMember :=
  tarfile.mkTarMember
    (tarfile.set_mtime (tarfile.info m) (obs (tarfile.mtime (tarfile.info m))))
    (tarfile.payload m).

Definition forget_mtime : tarfile.TarMember -> tarfile.TarMember :=
  observe (fun _ => 0%Z).

Definition alike (obs : Z -> Z) (w1 w2 : World) : Prop :=
  reads w1 = reads w2
  /\ (forall k, obs (clock w1 k) = obs (clock w2 k))
  /\ map (observe obs) (db w1) = map (observe obs) (db w2).

Definition end_alike (obs : Z -> Z) (o1 o2 : outcome (unit * World)) : Prop :=
  match o1, o2 with
  | Returns (_, w1), Returns (_, w2) => alike obs w1 w2
  | Raises e1, Raises e2 => e1 = e2
  | _, _ => False
  end.

(** Two archives, or two failures, that differ in modification times at
    most. *)
Definition same_but_mtime (o1 o2 : outcome tarfile.TarFile) : Prop :=
  match o1, o2 with
  | Returns a1, Returns a2 => map forget_mtime a1 = map forget_mtime a2
  | Raises e1, Raises e2 => e1 = e2
  | _, _ => False
  end.

(** *** Vocabulary of the round trip through a database *)

(** The text is well-formed UTF-8. *)
Definition utf8_text (s : string) : bool :=
  utf8_wf (map Byte.to_N (encode s)).

(** What the renderer produces for one package decodes again. *)
Definition renders_utf8 (r : convert.RepoDbFile) (db_type : RepoDbType.t)
    (pair : PackageDesc.t * option Files.t) : bool :=
  utf8_text (rendered (convert.render_desc_template r (fst pair)))
  && (if RepoDbType.eqb db_type RepoDbType.FILES
      then utf8_text (rendered (convert.render_files_template r (snd pair)))
      else true).

(** The directory of a package in the database, the paths of its file
    members, and the values a reader is to find for it. *)
Definition dir_of (version : string) (pair : PackageDesc.t * option Files.t) : string :=
  PackageDesc.name (fst pair) ++ "-" ++ version.

Definition file_paths (db_type : RepoDbType.t) (version : string)
    (pair : PackageDesc.t * option Files.t) : list string :=
  (dir_of version pair ++ "/desc")
  :: (if RepoDbType.eqb db_type RepoDbType.FILES
      then [dir_of version pair ++ "/files"] else []).

Definition models_of (r : convert.RepoDbFile) (db_type : RepoDbType.t)
    (pair : PackageDesc.t * option Files.t) : list RepoDbMemberData.t :=
  RepoDbMemberData.mk RepoDbMemberType.DESC (PackageDesc.name (fst pair))
    (rendered (convert.render_desc_template r (fst pair)))
  :: (if RepoDbType.eqb db_type RepoDbType.FILES
      then [RepoDbMemberData.mk RepoDbMemberType.FILES (PackageDesc.name (fst pair))
              (rendered (convert.render_files_template r (snd pair)))]
      else []).

(** A name that the header of a member stores and gives back as it is: it
    holds no NUL, where a header field ends, and it is well-formed
    UTF-8. *)
Definition stored_verbatim (s : string) : bool :=
  negb (has_char (ascii_of_nat 0) s) && utf8_text s.

(** *** Vocabulary of the clock and of plain paths *)


(** From the world [w] to the world [w']: the clock is the same, members
    were added at the end of the archive, the clock was read once for each
    of them, and each carries the reading taken for it. *)
Definition stamped (w w' : World) : Prop :=
  clock w' = clock w
  /\ exists added,
       db w' = (db w ++ added)%list
       /\ reads w' = reads w + List.length added
       /\ map (fun m => tarfile.mtime (tarfile.info m)) added
          = map (clock w) (seq (reads w) (List.length added)).

(** *** Sample values *)

(** An archive as a repository database has it: a directory, its desc and
    files members, and a member the reader has no use for. *)
Definition sample_db : tarfile.TarFile :=
  [ tarfile.mkTarMember (tarfile.set_type (tarfile.new "foo-1.0-1") tarfile.DIRTYPE) [];
    tarfile.mkTarMember (tarfile.new "foo-1.0-1/desc") (encode "%NAME%");
    tarfile.mkTarMember (tarfile.new "foo-1.0-1/files") (encode "%FILES%");
    tarfile.mkTarMember (tarfile.new "foo-1.0-1/install") (encode "") ].

Definition sample_constants : constants :=
  mkConstants "root" "root" "0755" "0644".

Definition sample_renderer : convert.RepoDbFile :=
  convert.mkRepoDbFile
    (fun d => Returns ("%NAME%" ++ newline ++ PackageDesc.name d ++ newline))
    (fun f => Returns ("%FILES%" ++ newline)).

Definition sample_group : OutputPackageBase.t :=
  OutputPackageBase.mk "foo" "1.0-1" [OutputPackage.mk "foo" [] None].

(** ** Strings *)

Section StringFacts.

Lemma append_nil_r (s : string) : s ++ "" = s.
Proof. induction s as [|a s IH]; simpl; [reflexivity | now rewrite IH]. Qed.

Lemma append_assoc (s t u : string) : (s ++ t) ++ u = s ++ t ++ u.
Proof. induction s as [|a s IH]; simpl; [reflexivity | now rewrite IH]. Qed.

Lemma length_append (s t : string) :
  String.length (s ++ t) = String.length s + String.length t.
Proof. induction s as [|a s IH]; simpl; [reflexivity | now rewrite IH]. Qed.

Lemma last_char_append (s t : string) :
  t <> "" -> last_char (s ++ t) = last_char t.
Proof.
  intros Ht. induction s as [|a s IH]; simpl; [reflexivity|].
  rewrite IH. destruct (s ++ t) eqn:E; [|reflexivity].
  destruct s; simpl in E; [contradiction | discriminate].
Qed.

Lemma join_cons (x : string) (xs : list string) :
  join (x :: xs) = x ++ join xs.
Proof.
  unfold join. destruct xs as [|y ys]; simpl.
  - now rewrite append_nil_r.
  - reflexivity.
Qed.

Lemma join_app (l1 l2 : list string) :
  join (l1 ++ l2)%list = join l1 ++ join l2.
Proof.
  induction l1 as [|x l1 IH].
  - reflexivity.
  - change ((x :: l1) ++ l2)%list with (x :: (l1 ++ l2))%list.
    now rewrite !join_cons, IH, append_assoc.
Qed.

End StringFacts.

(** ** [re.split] with a capturing one-character pattern *)

Section Split.

Variable c : ascii.

Lemma re_split_keep_not_nil (s : string) : re_split_keep c s <> [].
Proof.
  destruct s as [|a s]; simpl; [discriminate|].
  destruct (Ascii.eqb a c); [discriminate|].
  destruct (re_split_keep c s); discriminate.
Qed.

(** Nothing is lost: the tokens put together again are the string. *)
Lemma join_re_split_keep (s : string) : join (re_split_keep c s) = s.
Proof.
  induction s as [|a s IH]; [reflexivity|]. simpl.
  destruct (Ascii.eqb_spec a c) as [->|Hne].
  - now rewrite !join_cons, IH.
  - destruct (re_split_keep c s) as [|t ts] eqn:E.
    + now destruct (re_split_keep_not_nil s).
    + rewrite join_cons in IH. rewrite join_cons. simpl. now rewrite IH.
Qed.

(** A string without the separator is a single token. *)
Lemma re_split_keep_none (s : string) :
  has_char c s = false -> re_split_keep c s = [s].
Proof.
  induction s as [|a s IH]; simpl; [reflexivity|].
  intros H. apply orb_false_iff in H. destruct H as [Ha Hs].
  rewrite Ha, (IH Hs). reflexivity.
Qed.

(** Splitting distributes over an occurrence of the separator. *)
Lemma re_split_keep_at (s t : string) :
  re_split_keep c (s ++ String c t)
  = (re_split_keep c s ++ String c "" :: re_split_keep c t)%list.
Proof.
  induction s as [|a s IH]; simpl.
  - now rewrite Ascii.eqb_refl.
  - destruct (Ascii.eqb a c).
    + now rewrite IH.
    + rewrite IH. destruct (re_split_keep c s) as [|u us] eqn:E.
      * now destruct (re_split_keep_not_nil s).
      * reflexivity.
Qed.

(** The number of tokens is odd: a piece, then a separator and a piece per
    occurrence. *)
Lemma length_re_split_keep (s : string) :
  exists k, List.length (re_split_keep c s) = 2 * k + 1.
Proof.
  induction s as [|a s [k IH]]; simpl.
  - now exists 0.
  - destruct (Ascii.eqb a c).
    + exists (S k). simpl. rewrite IH. lia.
    + exists k. destruct (re_split_keep c s) as [|u us] eqn:E.
      * now destruct (re_split_keep_not_nil s).
      * simpl in *. lia.
Qed.

End Split.

(** ** Slices *)

Lemma slice_to_neg_app {A : Type} (k : nat) (l tail : list A) :
  List.length tail = k -> slice_to_neg k (l ++ tail)%list = l.
Proof.
  intros <-. unfold slice_to_neg. rewrite length_app.
  replace (List.length l + List.length tail - List.length tail)
    with (List.length l + 0) by lia.
  rewrite firstn_app_2. simpl. apply app_nil_r.
Qed.

Lemma slice_to_neg_short {A : Type} (k : nat) (l : list A) :
  List.length l <= k -> slice_to_neg k l = [].
Proof.
  intros H. unfold slice_to_neg.
  replace (List.length l - k) with 0 by lia. reflexivity.
Qed.

(** ** The anchored patterns *)

Section Patterns.

Lemma match_here_Some (alts : list string) (s r : string) :
  match_here alts s = Some r ->
  exists a, In a alts /\ ((s = a /\ r = "") \/ (s = a ++ newline /\ r = newline)).
Proof.
  induction alts as [|a alts IH]; simpl; [discriminate|].
  destruct (String.eqb_spec s a) as [->|_].
  - intros [= <-]. exists a. auto.
  - destruct (String.eqb_spec s (a ++ newline)) as [->|_].
    + intros [= <-]. exists a. auto.
    + intros H. destruct (IH H) as (b & Hb & Hs). exists b. auto.
Qed.

Lemma match_here_None (alts : list string) (s a : string) :
  match_here alts s = None -> In a alts -> s <> a /\ s <> a ++ newline.
Proof.
  induction alts as [|b alts IH]; simpl; [contradiction|].
  destruct (String.eqb_spec s b) as [|Hb]; [discriminate|].
  destruct (String.eqb_spec s (b ++ newline)) as [|Hbn]; [discriminate|].
  intros H [->|Hin]; auto.
Qed.

Lemma re_search_cons (p : pattern) (a : ascii) (s : string) :
  re_search p (String a s)
  = match match_here (alternatives p) (String a s) with
    | Some _ => true
    | None => re_search p s
    end.
Proof. reflexivity. Qed.

Lemma re_sub_empty_cons (p : pattern) (a : ascii) (s : string) :
  re_sub_empty p (String a s)
  = match match_here (alternatives p) (String a s) with
    | Some rest => rest
    | None => String a (re_sub_empty p s)
    end.
Proof. reflexivity. Qed.

(** [re.search] finds a match exactly when some alternative closes the
    string, or closes it but for a final newline. *)
Lemma re_search_true_iff (p : pattern) (s : string) :
  re_search p s = true <->
  exists pre a, In a (alternatives p) /\ (s = pre ++ a \/ s = pre ++ a ++ newline).
Proof.
  split.
  - induction s as [|c s IH].
    + simpl. destruct (match_here (alternatives p) "") as [r|] eqn:E; [|discriminate].
      intros _. destruct (match_here_Some _ _ _ E) as (a & Ha & [[-> _]|[-> _]]);
        exists "", a; auto.
    + rewrite re_search_cons.
      destruct (match_here (alternatives p) (String c s)) as [r|] eqn:E.
      * intros _. destruct (match_here_Some _ _ _ E) as (a & Ha & [[-> _]|[-> _]]);
          exists "", a; auto.
      * intros H. destruct (IH H) as (pre & a & Ha & [->| ->]);
          exists (String c pre), a; auto.
  - intros (pre & a & Ha & Hs). revert s Hs.
    induction pre as [|c pre IH]; intros s Hs.
    + simpl in Hs.
      assert (Hm : match_here (alternatives p) s <> None).
      { intros Hn. destruct (match_here_None _ _ a Hn Ha). destruct Hs; contradiction. }
      destruct s; simpl; destruct (match_here (alternatives p) _); congruence.
    + destruct s as [|c' s]; [destruct Hs; discriminate|].
      rewrite re_search_cons.
      destruct (match_here (alternatives p) (String c' s)); [reflexivity|].
      apply IH. destruct Hs as [Hs|Hs]; simpl in Hs; injection Hs; auto.
Qed.

(** Where nothing matches, [re.sub] returns its argument. *)
Lemma re_sub_empty_no_match (p : pattern) (s : string) :
  re_search p s = false -> re_sub_empty p s = s.
Proof.
  induction s as [|c s IH].
  - simpl. destruct (match_here (alternatives p) ""); [discriminate | reflexivity].
  - rewrite re_search_cons, re_sub_empty_cons.
    destruct (match_here (alternatives p) (String c s)); [discriminate|].
    intros H. now rewrite IH.
Qed.

(** A literal closed by [/desc] or [/files] is matched at its last
    component only: no earlier position of [d ++ "/desc"] starts a match. *)
Lemma no_match_before_desc (c : ascii) (d : string) :
  match_here ["/desc"; "/files"] (String c (d ++ "/desc")) = None.
Proof.
  destruct (match_here _ _) as [r|] eqn:E; [exfalso | reflexivity].
  assert (Hl : last_char (String c d ++ "/desc") = Some "c"%char)
    by (now rewrite last_char_append).
  assert (Hn : String.length (String c d ++ "/desc") = String.length d + 6)
    by (rewrite length_append; simpl; lia).
  change (String c d ++ "/desc") with (String c (d ++ "/desc")) in Hl, Hn.
  destruct (match_here_Some _ _ _ E) as (a & Ha & Hs).
  destruct Ha as [<-|[<-|[]]]; destruct Hs as [[Hs _]|[Hs _]];
    rewrite Hs in Hl, Hn; simpl in Hl, Hn; (discriminate || lia).
Qed.

Lemma no_match_before_files (c : ascii) (d : string) :
  match_here ["/desc"; "/files"] (String c (d ++ "/files")) = None.
Proof.
  destruct (match_here _ _) as [r|] eqn:E; [exfalso | reflexivity].
  assert (Hl : last_char (String c d ++ "/files") = Some "s"%char)
    by (now rewrite last_char_append).
  assert (Hn : String.length (String c d ++ "/files") = String.length d + 7)
    by (rewrite length_append; simpl; lia).
  change (String c d ++ "/files") with (String c (d ++ "/files")) in Hl, Hn.
  destruct (match_here_Some _ _ _ E) as (a & Ha & Hs).
  destruct Ha as [<-|[<-|[]]]; destruct Hs as [[Hs _]|[Hs _]];
    rewrite Hs in Hl, Hn; simpl in Hl, Hn; (discriminate || lia).
Qed.

(** Stripping the suffix gives back the directory name. *)
Lemma dirname_of_desc (d : string) : dirname_of (d ++ "/desc") = d.
Proof.
  unfold dirname_of. induction d as [|c d IH]; [reflexivity|].
  change (String c d ++ "/desc") with (String c (d ++ "/desc")).
  rewrite re_sub_empty_cons. cbn [alternatives].
  now rewrite no_match_before_desc, IH.
Qed.

Lemma dirname_of_files (d : string) : dirname_of (d ++ "/files") = d.
Proof.
  unfold dirname_of. induction d as [|c d IH]; [reflexivity|].
  change (String c d ++ "/files") with (String c (d ++ "/files")).
  rewrite re_sub_empty_cons. cbn [alternatives].
  now rewrite no_match_before_files, IH.
Qed.

End Patterns.

(** ** The Package-Identifier Resolver *)

Section Resolver.

Lemma extract_unfold (name : string) :
  _extract_db_member_package_name name
  = Returns (join (slice_to_neg 4 (tokens_of name))).
Proof. reflexivity. Qed.

(** The tokens of [<name>-<version>-<release>]: those of the name, then
    the four the slice drops. *)
Lemma tokens_of_shape (name version release : string) :
  has_char hyphen version = false ->
  has_char hyphen release = false ->
  re_split_keep hyphen (name ++ "-" ++ version ++ "-" ++ release)
  = (re_split_keep hyphen name ++ ["-"; version; "-"; release])%list.
Proof.
  intros Hv Hr.
  change (name ++ "-" ++ version ++ "-" ++ release)
    with (name ++ String hyphen (version ++ String hyphen release)).
  rewrite !re_split_keep_at, (re_split_keep_none _ _ Hv), (re_split_keep_none _ _ Hr).
  reflexivity.
Qed.

Lemma extract_of_dirname (d suffix : string) :
  suffix = "/desc" \/ suffix = "/files" ->
  _extract_db_member_package_name (d ++ suffix)
  = Returns (join (slice_to_neg 4 (re_split_keep hyphen d))).
Proof.
  intros [->| ->]; rewrite extract_unfold; unfold tokens_of;
    [rewrite dirname_of_desc | rewrite dirname_of_files]; reflexivity.
Qed.

Lemma extract_short (name : string) :
  List.length (tokens_of name) <= 4 ->
  _extract_db_member_package_name name = Returns "".
Proof.
  intros H. rewrite extract_unfold, slice_to_neg_short by exact H. reflexivity.
Qed.

(** C1.  For a member path [<dirname>/desc] or [<dirname>/files] whose
    directory name is [<name>-<version>-<release>], version and release
    being the two hyphen-delimited closing components, the resolver
    returns exactly [<name>], whatever hyphens the name has.  At
    [foo-bar-1.0-1] this is [foo-bar]. *)
Theorem extract_recovers_name (name version release suffix : string) :
  has_char hyphen version = false ->
  has_char hyphen release = false ->
  suffix = "/desc" \/ suffix = "/files" ->
  _extract_db_member_package_name (name ++ "-" ++ version ++ "-" ++ release ++ suffix)
  = Returns name.
Proof.
  intros Hv Hr Hs.
  replace (name ++ "-" ++ version ++ "-" ++ release ++ suffix)
    with ((name ++ "-" ++ version ++ "-" ++ release) ++ suffix)
    by (now rewrite !append_assoc).
  rewrite (extract_of_dirname _ _ Hs), (tokens_of_shape _ _ _ Hv Hr).
  rewrite slice_to_neg_app by reflexivity.
  now rewrite join_re_split_keep.
Qed.

Lemma extract_recovers_foo_bar :
  has_char hyphen "1.0" = false /\ has_char hyphen "1" = false
  /\ _extract_db_member_package_name "foo-bar-1.0-1/desc" = Returns "foo-bar"
  /\ _extract_db_member_package_name "foo-bar-1.0-1/files" = Returns "foo-bar".
Proof.
  split; [reflexivity|]. split; [reflexivity|]. split.
  - apply (extract_recovers_name "foo-bar" "1.0" "1" "/desc");
      [reflexivity | reflexivity | left; reflexivity].
  - apply (extract_recovers_name "foo-bar" "1.0" "1" "/files");
      [reflexivity | reflexivity | right; reflexivity].
Defined.

(** C3, as the code has it.  A member path whose directory name splits
    into fewer than four hyphen-retaining tokens is not refused: the
    resolver returns the empty string and raises nothing. *)
Theorem extract_few_tokens_returns_empty (name : string) :
  List.length (tokens_of name) < 4 ->
  _extract_db_member_package_name name = Returns ""
  /\ forall e, _extract_db_member_package_name name <> Raises e.
Proof.
  intros H. rewrite extract_short by lia. split; [reflexivity | discriminate].
Qed.

Lemma extract_few_tokens_at_foo :
  List.length (tokens_of "foo/desc") < 4
  /\ _extract_db_member_package_name "foo/desc" = Returns ""
  /\ forall e, _extract_db_member_package_name "foo/desc" <> Raises e.
Proof.
  split; [vm_compute; lia|].
  apply (extract_few_tokens_returns_empty "foo/desc"). vm_compute; lia.
Defined.

(** C3, as the document states it, fails: [foo/desc] has the single token
    [foo], and the resolver answers the empty string where an
    [IdentifierFormatError] is called for. *)
Lemma extract_foo_is_not_an_error :
  List.length (tokens_of "foo/desc") = 1
  /\ _extract_db_member_package_name "foo/desc" = Returns ""
  /\ _extract_db_member_package_name "foo/desc" <> Raises IdentifierFormatError.
Proof. split; [reflexivity|]. split; [reflexivity | discriminate]. Qed.

(** C9.  A member path whose directory name splits into at most four
    hyphen-retaining tokens resolves to the empty string; the resolver
    returns, it does not raise. *)
Theorem extract_at_most_four_tokens (name : string) :
  List.length (tokens_of name) <= 4 ->
  _extract_db_member_package_name name = Returns "".
Proof. apply extract_short. Qed.

Lemma extract_at_most_four_tokens_at_foo_1_0 :
  List.length (tokens_of "foo-1.0/files") <= 4
  /\ _extract_db_member_package_name "foo-1.0/files" = Returns "".
Proof.
  split; [vm_compute; lia|].
  apply (extract_at_most_four_tokens "foo-1.0/files"). vm_compute; lia.
Defined.

(** C10.  The desc member and the files member of one directory resolve
    to the same package name. *)
Theorem extract_desc_files_agree (d : string) :
  _extract_db_member_package_name (d ++ "/desc")
  = _extract_db_member_package_name (d ++ "/files").
Proof.
  rewrite (extract_of_dirname d "/desc") by (now left).
  rewrite (extract_of_dirname d "/files") by (now right).
  reflexivity.
Qed.

End Resolver.

(** ** The Archive Reader *)

Section Reader.

Lemma retained_iff (n : string) :
  re_search default_regex n = true <-> retained n.
Proof.
  rewrite re_search_true_iff. unfold retained, ends_in. simpl. split.
  - intros (pre & a & [<-|[<-|[]]] & [->| ->]); eauto 6.
  - intros [[p ->]|[[p ->]|[[p ->]|[p ->]]]]; eauto 10.
Qed.

Lemma not_ends_in (suffix s : string) :
  suffix <> "" -> last_char s <> last_char suffix -> ~ ends_in suffix s.
Proof.
  intros Hne Hl [p ->]. now rewrite last_char_append in Hl.
Qed.

(** *** Classification by suffix *)

Lemma file_type_of_desc (n : string) :
  ends_in "/desc" n -> file_type_of n = RepoDbMemberType.DESC.
Proof.
  intros [p ->]. unfold file_type_of.
  assert (Hd : re_search (Anchored ["/desc"]) (p ++ "/desc") = true).
  { apply re_search_true_iff. exists p, "/desc". simpl. auto. }
  assert (Hf : re_search (Anchored ["/files"]) (p ++ "/desc") = false).
  { apply not_true_is_false. intros H. apply re_search_true_iff in H.
    destruct H as (pre & a & [<-|[]] & [H|H]);
      apply (f_equal last_char) in H;
      rewrite !last_char_append in H by discriminate; discriminate. }
  now rewrite Hd, Hf.
Qed.

Lemma file_type_of_files (n : string) :
  ends_in "/files" n -> file_type_of n = RepoDbMemberType.FILES.
Proof.
  intros [p ->]. unfold file_type_of.
  assert (Hf : re_search (Anchored ["/files"]) (p ++ "/files") = true).
  { apply re_search_true_iff. exists p, "/files". simpl. auto. }
  now rewrite Hf.
Qed.

Lemma file_type_of_retained (n : string) :
  re_search default_regex n = true ->
  file_type_of n <> RepoDbMemberType.UNKNOWN.
Proof.
  intros H. apply re_search_true_iff in H.
  destruct H as (pre & a & Ha & Hs). unfold file_type_of.
  destruct (re_search (Anchored ["/files"]) n) eqn:Hf; [discriminate|].
  destruct (re_search (Anchored ["/desc"]) n) eqn:Hd; [discriminate|].
  exfalso. simpl in Ha. destruct Ha as [<-|[<-|[]]].
  - apply not_true_iff_false in Hd. apply Hd, re_search_true_iff.
    exists pre, "/desc". simpl. auto.
  - apply not_true_iff_false in Hf. apply Hf, re_search_true_iff.
    exists pre, "/files". simpl. auto.
Qed.

(** *** What the generator yields *)

Lemma member_as_model_unfold (db_file : tarfile.TarFile) (n : string) :
  member_as_model db_file n
  = match read_member_text db_file n with
    | Returns text =>
        Returns (RepoDbMemberData.mk (file_type_of n)
                   (join (slice_to_neg 4 (tokens_of n))) text)
    | Raises e => Raises e
    end.
Proof. reflexivity. Qed.

Lemma member_as_model_type (db_file : tarfile.TarFile) (n : string)
      (m : RepoDbMemberData.t) :
  member_as_model db_file n = Returns m ->
  RepoDbMemberData.member_type m = file_type_of n.
Proof.
  rewrite member_as_model_unfold.
  destruct (read_member_text db_file n); [|discriminate].
  now intros [= <-].
Qed.

Lemma yield_each_In (db_file : tarfile.TarFile) (names : list string)
      (m : RepoDbMemberData.t) :
  In m (fst (yield_each db_file names)) ->
  exists n, In n names /\ member_as_model db_file n = Returns m.
Proof.
  induction names as [|n names IH]; simpl; [contradiction|].
  destruct (member_as_model db_file n) as [m0|e] eqn:E; simpl; [|contradiction].
  destruct (yield_each db_file names) as [ms e']. simpl in *.
  intros [<-|Hin].
  - exists n. auto.
  - destruct (IH Hin) as (n' & Hn' & Hm). exists n'. auto.
Qed.



(** *** The names the reader asks for *)

Lemma rstrip_slash_append (p q : string) :
  q <> "" -> tarfile.rstrip_slash q = q ->
  tarfile.rstrip_slash (p ++ q) = p ++ q.
Proof.
  intros Hq Hr. induction p as [|c p IH]; simpl; [assumption|].
  rewrite IH. destruct (p ++ q) eqn:E; [|reflexivity].
  destruct p; simpl in E; [contradiction | discriminate].
Qed.

Lemma rstrip_slash_retained (n : string) :
  re_search default_regex n = true -> tarfile.rstrip_slash n = n.
Proof.
  intros H. apply retained_iff in H.
  destruct H as [[p ->]|[[p ->]|[[p ->]|[p ->]]]];
    apply rstrip_slash_append; (discriminate || reflexivity).
Qed.

(** *** What the design document says of the reader *)




(** The anchor [$] of the pattern also holds before a newline that closes
    the string: a path that ends in a newline after [/desc] is let
    through, and a value is yielded for it. *)
Lemma reader_keeps_newline_terminated_path :
  let path := "foo-1.0-1/desc" ++ newline in
  let db_file := [tarfile.mkTarMember (tarfile.new path) (encode "x")] in
  ~ ends_in "/desc" path /\ ~ ends_in "/files" path
  /\ _db_file_member_as_model db_file default_regex
     = ([RepoDbMemberData.mk RepoDbMemberType.DESC "foo" "x"], None).
Proof.
  cbv zeta. split; [|split].
  - apply not_ends_in; discriminate.
  - apply not_ends_in; discriminate.
  - reflexivity.
Qed.

(** C8.  Every value the reader yields under its default pattern comes
    from a member of the archive and carries the kind chosen from that
    member's path: DESC when the path ends in [/desc], FILES when it ends
    in [/files], and never UNKNOWN. *)
Theorem reader_never_unknown (db_file : tarfile.TarFile) (m : RepoDbMemberData.t) :
  In m (fst (_db_file_member_as_model db_file default_regex)) ->
  RepoDbMemberData.member_type m <> RepoDbMemberType.UNKNOWN
  /\ exists n,
       In n (tarfile.getnames db_file)
       /\ member_as_model db_file n = Returns m
       /\ (ends_in "/desc" n ->
           RepoDbMemberData.member_type m = RepoDbMemberType.DESC)
       /\ (ends_in "/files" n ->
           RepoDbMemberData.member_type m = RepoDbMemberType.FILES).
Proof.
  intros H. apply yield_each_In in H. destruct H as (n & Hn & Hm).
  apply filter_In in Hn. destruct Hn as [Hin Hr].
  rewrite (member_as_model_type _ _ _ Hm).
  split; [now apply file_type_of_retained|].
  exists n. repeat split; auto using file_type_of_desc, file_type_of_files.
Qed.

End Reader.



Lemma reader_never_unknown_at_sample :
  RepoDbMemberData.member_type
    (RepoDbMemberData.mk RepoDbMemberType.DESC "foo" "%NAME%")
  <> RepoDbMemberType.UNKNOWN.
Proof.
  refine (proj1 (reader_never_unknown sample_db
                   (RepoDbMemberData.mk RepoDbMemberType.DESC "foo" "%NAME%") _)).
  left. reflexivity.
Defined.

(** ** The Archive Writer *)

Section Writer.

Variable c : constants.
Variable r : convert.RepoDbFile.
Variable db_type : RepoDbType.t.
Variables dir_mode file_mode : Z.
Hypothesis modes : modes_are c dir_mode file_mode.

(** Content of the announced size is stored whole. *)
Lemma addfile_exact (t : tarfile.TarFile) (ti : tarfile.TarInfo) (text : string) :
  tarfile.size ti = len (encode text) ->
  tarfile.addfile t ti (Some (encode text))
  = Returns (t ++ [tarfile.mkTarMember ti (encode text)])%list.
Proof.
  intros H. unfold tarfile.addfile. rewrite H, Z.ltb_irrefl.
  unfold len. now rewrite Nat2Z.id, firstn_all.
Qed.

(** The steps of the monad, one rewriting rule each. *)
Lemma step_time {A : Type} (k : Z -> M A) (w : World) :
  mbind int_time_time k w
  = k (clock w (reads w)) (mkWorld (clock w) (S (reads w)) (db w)).
Proof. reflexivity. Qed.

Lemma step_lift {A B : Type} (o : outcome A) (a : A) (k : A -> M B) (w : World) :
  o = Returns a -> mbind (lift o) k w = k a w.
Proof. now intros ->. Qed.

Lemma step_add_header {A : Type} (ti : tarfile.TarInfo) (k : unit -> M A) (w : World) :
  mbind (db_addfile ti None) k w
  = k tt (mkWorld (clock w) (reads w) (db w ++ [tarfile.mkTarMember ti []])%list).
Proof. reflexivity. Qed.

Lemma step_add_file {A : Type} (ti : tarfile.TarInfo) (text : string)
      (k : unit -> M A) (w : World) :
  tarfile.size ti = len (encode text) ->
  mbind (db_addfile ti (Some (encode text))) k w
  = k tt (mkWorld (clock w) (reads w)
            (db w ++ [tarfile.mkTarMember ti (encode text)])%list).
Proof.
  intros H. unfold mbind, db_addfile. now rewrite addfile_exact.
Qed.

Lemma last_add_file (ti : tarfile.TarInfo) (text : string) (w : World) :
  tarfile.size ti = len (encode text) ->
  db_addfile ti (Some (encode text)) w
  = Returns (tt, mkWorld (clock w) (reads w)
                   (db w ++ [tarfile.mkTarMember ti (encode text)])%list).
Proof.
  intros H. unfold db_addfile. now rewrite addfile_exact.
Qed.

(** One turn of the loop: the clock is read once per member, and the
    members of the package are appended to the archive. *)
Lemma stream_package_run (version : string)
      (pair : PackageDesc.t * option Files.t) (w : World) :
  renders r db_type pair = true ->
  stream_package c version r db_type pair w
  = Returns (tt, mkWorld (clock w) (reads w + reads_per_package db_type)
                   (db w ++ package_members c dir_mode file_mode version r db_type
                                            (clock w) (reads w) pair)%list).
Proof.
  destruct modes as [Hd Hf]. destruct pair as [d f].
  unfold renders, package_members, reads_per_package. simpl fst. simpl snd.
  intros Hr. apply andb_true_iff in Hr. destruct Hr as [Hrd Hrf].
  destruct (convert.render_desc_template r d) as [dt|] eqn:Ed; [|discriminate].
  unfold stream_package.
  rewrite step_time, (step_lift _ _ _ _ Hd), step_add_header.
  rewrite (step_lift _ _ _ _ Ed), step_time, (step_lift _ _ _ _ Hf).
  rewrite step_add_file by reflexivity.
  cbn [clock reads db]. unfold rendered.
  destruct (RepoDbType.eqb db_type RepoDbType.FILES).
  - destruct (convert.render_files_template r f) as [ft|] eqn:Ef; [|discriminate].
    rewrite (step_lift _ ft _ _ eq_refl), step_time, (step_lift _ _ _ _ Hf).
    rewrite last_add_file by reflexivity.
    cbn [clock reads db]. rewrite <- !app_assoc.
    replace (reads w + 3) with (S (S (S (reads w)))) by lia. reflexivity.
  - unfold ret. rewrite <- !app_assoc.
    replace (reads w + 2) with (S (S (reads w))) by lia. reflexivity.
Qed.

(** The loop over the packages of a group. *)
Lemma for_each_package_run (version : string)
      (pairs : list (PackageDesc.t * option Files.t)) (w : World) :
  forallb (renders r db_type) pairs = true ->
  for_each (stream_package c version r db_type) pairs w
  = Returns (tt, mkWorld (clock w)
                   (reads w + List.length pairs * reads_per_package db_type)
                   (db w ++ group_members c dir_mode file_mode version r db_type
                                          (clock w) (reads w) pairs)%list).
Proof.
  revert w. induction pairs as [|pair pairs IH]; intros w H.
  - simpl. unfold ret. rewrite Nat.add_0_r, app_nil_r. now destruct w.
  - simpl in H. apply andb_true_iff in H. destruct H as [Hp Hps].
    cbn [for_each]. unfold mbind at 1.
    rewrite (stream_package_run version pair w Hp), (IH _ Hps).
    cbn [clock reads db group_members List.length].
    rewrite <- app_assoc. do 3 f_equal. lia.
Qed.

Lemma stream_package_base_run (model : OutputPackageBase.t) (w : World) :
  forallb (renders r db_type) (OutputPackageBase.get_packages_as_models model) = true ->
  _stream_package_base_to_db c model r db_type w
  = Returns (tt, mkWorld (clock w)
                   (reads w
                    + List.length (OutputPackageBase.get_packages_as_models model)
                      * reads_per_package db_type)
                   (db w ++ group_members c dir_mode file_mode
                                          (OutputPackageBase.version model) r db_type
                                          (clock w) (reads w)
                                          (OutputPackageBase.get_packages_as_models model))%list).
Proof. apply for_each_package_run. Qed.

(** *** What the members of a group look like *)

Lemma length_group_members (version : string) (clk : nat -> Z) (k : nat)
      (pairs : list (PackageDesc.t * option Files.t)) :
  List.length (group_members c dir_mode file_mode version r db_type clk k pairs)
  = List.length pairs * reads_per_package db_type.
Proof.
  revert k. induction pairs as [|pair pairs IH]; intros k; [reflexivity|].
  cbn [group_members List.length]. rewrite length_app, IH.
  unfold package_members, reads_per_package.
  destruct (RepoDbType.eqb db_type RepoDbType.FILES); simpl; lia.
Qed.

(** Names, types and contents, package by package. *)
Lemma entries_of_group_members (model : OutputPackageBase.t) (clk : nat -> Z) (k : nat) :
  map entry_of
      (group_members c dir_mode file_mode (OutputPackageBase.version model) r db_type
                     clk k (OutputPackageBase.get_packages_as_models model))
  = flat_map (documented_entries r db_type (OutputPackageBase.version model))
             (OutputPackageBase.packages model).
Proof.
  unfold OutputPackageBase.get_packages_as_models.
  revert k. induction (OutputPackageBase.packages model) as [|p ps IH]; intros k;
    [reflexivity|].
  cbn [map group_members flat_map]. rewrite map_app, IH. f_equal.
  unfold package_members, documented_entries. now destruct db_type.
Qed.

(** The file members, with the size in their header. *)
Lemma sized_entries_of_group_members (version : string) (clk : nat -> Z) (k : nat)
      (pairs : list (PackageDesc.t * option Files.t)) :
  map sized_entry_of
      (filter (fun m => tarfile.isreg (tarfile.info m))
              (group_members c dir_mode file_mode version r db_type clk k pairs))
  = flat_map (documented_files r db_type version) pairs.
Proof.
  revert k. induction pairs as [|pair pairs IH]; intros k; [reflexivity|].
  cbn [group_members flat_map]. rewrite filter_app, map_app, IH. f_equal.
  unfold package_members, documented_files. now destruct db_type.
Qed.

Lemma sizes_of_group_members (version : string) (clk : nat -> Z) (k : nat)
      (pairs : list (PackageDesc.t * option Files.t)) :
  Forall (fun m => tarfile.size (tarfile.info m) = len (tarfile.payload m))
         (group_members c dir_mode file_mode version r db_type clk k pairs).
Proof.
  revert k. induction pairs as [|pair pairs IH]; intros k; [constructor|].
  cbn [group_members]. apply Forall_app. split; [|apply IH].
  unfold package_members.
  destruct (RepoDbType.eqb db_type RepoDbType.FILES);
    repeat (constructor; try reflexivity).
Qed.

(** Owner, group and permission bits come from the constants. *)
Lemma metadata_of_group_members (version : string) (clk : nat -> Z) (k : nat)
      (pairs : list (PackageDesc.t * option Files.t)) :
  Forall (fun m =>
            tarfile.uname (tarfile.info m) = DB_USER c
            /\ tarfile.gname (tarfile.info m) = DB_GROUP c
            /\ tarfile.mode (tarfile.info m)
               = (if tarfile.isdir (tarfile.info m) then dir_mode else file_mode)
            /\ (tarfile.type (tarfile.info m) = tarfile.DIRTYPE
                \/ tarfile.type (tarfile.info m) = tarfile.REGTYPE))
         (group_members c dir_mode file_mode version r db_type clk k pairs).
Proof.
  revert k. induction pairs as [|pair pairs IH]; intros k; [constructor|].
  cbn [group_members]. apply Forall_app. split; [|apply IH].
  unfold package_members.
  destruct (RepoDbType.eqb db_type RepoDbType.FILES);
    repeat (constructor; [cbn; auto|]); constructor.
Qed.

(** The modification times are the successive readings of the clock. *)
Lemma mtimes_of_group_members (version : string) (clk : nat -> Z) (k : nat)
      (pairs : list (PackageDesc.t * option Files.t)) :
  map (fun m => tarfile.mtime (tarfile.info m))
      (group_members c dir_mode file_mode version r db_type clk k pairs)
  = map clk (seq k (List.length pairs * reads_per_package db_type)).
Proof.
  revert k. induction pairs as [|pair pairs IH]; intros k; [reflexivity|].
  cbn [group_members List.length]. rewrite map_app, IH.
  replace (S (List.length pairs) * reads_per_package db_type)
    with (reads_per_package db_type + List.length pairs * reads_per_package db_type)
    by lia.
  rewrite seq_app, map_app. f_equal.
  unfold package_members, reads_per_package.
  now destruct (RepoDbType.eqb db_type RepoDbType.FILES).
Qed.

End Writer.

(** ** Two runs of the writer

    Whatever the constants, the renderer and the input, two runs from
    worlds that look alike under an observation of time end alike: with
    the same exception, or with archives that look alike. *)

Section TwoRuns.

Variable obs : Z -> Z.
Variable c : constants.
Variable r : convert.RepoDbFile.
Variable db_type : RepoDbType.t.

Lemma alike_tick (w1 w2 : World) :
  alike obs w1 w2 ->
  obs (clock w1 (reads w1)) = obs (clock w2 (reads w2))
  /\ alike obs (mkWorld (clock w1) (S (reads w1)) (db w1))
               (mkWorld (clock w2) (S (reads w2)) (db w2)).
Proof.
  intros (Hr & Hc & Hd). rewrite Hr. split; [apply Hc|].
  repeat split; cbn; auto.
Qed.

Lemma alike_add (w1 w2 : World) (t1 t2 : tarfile.TarInfo) (bytes : list byte) :
  alike obs w1 w2 ->
  observe obs (tarfile.mkTarMember t1 bytes) = observe obs (tarfile.mkTarMember t2 bytes) ->
  alike obs (mkWorld (clock w1) (reads w1) (db w1 ++ [tarfile.mkTarMember t1 bytes])%list)
            (mkWorld (clock w2) (reads w2) (db w2 ++ [tarfile.mkTarMember t2 bytes])%list).
Proof.
  intros (Hr & Hc & Hd) Ht. repeat split; cbn [clock reads db]; auto.
  rewrite !map_app, Hd. cbn [map]. now rewrite Ht.
Qed.

(** Adding a file of a given header and content: both runs fail, or both
    go on in worlds alike. *)
Lemma last_addfile_alike (w1 w2 : World) (t1 t2 : tarfile.TarInfo)
      (fileobj : option (list byte)) :
  alike obs w1 w2 ->
  tarfile.size t1 = tarfile.size t2 ->
  (forall bytes, observe obs (tarfile.mkTarMember t1 bytes)
                 = observe obs (tarfile.mkTarMember t2 bytes)) ->
  end_alike obs (db_addfile t1 fileobj w1) (db_addfile t2 fileobj w2).
Proof.
  intros Hw Hs Ht. unfold db_addfile, tarfile.addfile.
  destruct fileobj as [bytes|].
  - rewrite Hs. destruct (len bytes <? tarfile.size t2)%Z; [reflexivity|].
    apply alike_add; auto.
  - apply alike_add; auto.
Qed.

Lemma mbind_alike {A : Type} (c1 c2 : M A) (k1 k2 : A -> M unit) (w1 w2 : World) :
  match c1 w1, c2 w2 with
  | Returns (a1, w1'), Returns (a2, w2') =>
      end_alike obs (k1 a1 w1') (k2 a2 w2')
  | Raises e1, Raises e2 => e1 = e2
  | _, _ => False
  end ->
  end_alike obs (mbind c1 k1 w1) (mbind c2 k2 w2).
Proof.
  unfold mbind.
  destruct (c1 w1) as [[a1 w1']|e1], (c2 w2) as [[a2 w2']|e2];
    intros H; try contradiction; exact H.
Qed.

Lemma db_addfile_alike (w1 w2 : World) (t1 t2 : tarfile.TarInfo)
      (fileobj : option (list byte)) (k1 k2 : unit -> M unit) :
  alike obs w1 w2 ->
  tarfile.size t1 = tarfile.size t2 ->
  (forall bytes, observe obs (tarfile.mkTarMember t1 bytes)
                 = observe obs (tarfile.mkTarMember t2 bytes)) ->
  (forall w1' w2', alike obs w1' w2' -> end_alike obs (k1 tt w1') (k2 tt w2')) ->
  end_alike obs (mbind (db_addfile t1 fileobj) k1 w1)
                (mbind (db_addfile t2 fileobj) k2 w2).
Proof.
  intros Hw Hs Ht Hk. apply mbind_alike.
  pose proof (last_addfile_alike w1 w2 t1 t2 fileobj Hw Hs Ht) as H.
  unfold end_alike in H.
  destruct (db_addfile t1 fileobj w1) as [[[] w1']|e1],
           (db_addfile t2 fileobj w2) as [[[] w2']|e2];
    try contradiction; auto.
Qed.

Lemma lift_alike {A : Type} (o : outcome A) (w1 w2 : World) (k1 k2 : A -> M unit) :
  (forall a, end_alike obs (k1 a w1) (k2 a w2)) ->
  end_alike obs (mbind (lift o) k1 w1) (mbind (lift o) k2 w2).
Proof.
  intros Hk. unfold mbind, lift. destruct o; [apply Hk | reflexivity].
Qed.

Lemma stamped_alike (t : tarfile.TarInfo) (now1 now2 : Z) (u g : string) (m : Z)
      (bytes : list byte) :
  obs now1 = obs now2 ->
  observe obs
    (tarfile.mkTarMember
       (tarfile.set_mode (tarfile.set_gname (tarfile.set_uname
          (tarfile.set_mtime t now1) u) g) m) bytes)
  = observe obs
      (tarfile.mkTarMember
         (tarfile.set_mode (tarfile.set_gname (tarfile.set_uname
            (tarfile.set_mtime t now2) u) g) m) bytes).
Proof. intros H. unfold observe. cbn. now rewrite H. Qed.

Lemma stream_package_alike (version : string)
      (pair : PackageDesc.t * option Files.t) (w1 w2 : World) :
  alike obs w1 w2 ->
  end_alike obs (stream_package c version r db_type pair w1)
                (stream_package c version r db_type pair w2).
Proof.
  intros Hw. destruct pair as [d f]. unfold stream_package.
  rewrite !step_time. destruct (alike_tick _ _ Hw) as [Hnow Hw1].
  apply lift_alike. intros dm.
  apply db_addfile_alike;
    [assumption | reflexivity | intros; now apply stamped_alike |].
  intros w1' w2' Hw'. apply lift_alike. intros dt.
  rewrite !step_time. destruct (alike_tick _ _ Hw') as [Hnow' Hw2].
  apply lift_alike. intros fm.
  apply db_addfile_alike;
    [assumption | reflexivity | intros; now apply stamped_alike |].
  intros w1'' w2'' Hw''.
  destruct (RepoDbType.eqb db_type RepoDbType.FILES); [|exact Hw''].
  apply lift_alike. intros ft.
  rewrite !step_time. destruct (alike_tick _ _ Hw'') as [Hnow'' Hw3].
  apply lift_alike. intros fm'.
  apply last_addfile_alike;
    [assumption | reflexivity | intros; now apply stamped_alike].
Qed.

Lemma for_each_alike {A : Type} (body : A -> M unit) (l : list A) :
  (forall x w1 w2, alike obs w1 w2 -> end_alike obs (body x w1) (body x w2)) ->
  forall w1 w2, alike obs w1 w2 ->
                end_alike obs (for_each body l w1) (for_each body l w2).
Proof.
  intros Hb. induction l as [|x l IH]; intros w1 w2 Hw; [exact Hw|].
  cbn [for_each]. apply mbind_alike.
  pose proof (Hb x w1 w2 Hw) as H. unfold end_alike in H.
  destruct (body x w1) as [[[] w1']|e1], (body x w2) as [[[] w2']|e2];
    try contradiction; auto.
Qed.

Lemma stream_package_bases_alike (groups : list OutputPackageBase.t) (w1 w2 : World) :
  alike obs w1 w2 ->
  end_alike obs (stream_package_bases_to_db c groups r db_type w1)
                (stream_package_bases_to_db c groups r db_type w2).
Proof.
  apply for_each_alike. intros model w1' w2' Hw.
  apply for_each_alike; [|assumption].
  intros pair. apply stream_package_alike.
Qed.

End TwoRuns.

(** ** The clock and the modification times

    Whatever the constants and the renderer, a run that returns has read
    the clock once for each member it added, and the member carries that
    reading. *)

Section Stamps.

Lemma stamped_refl (w : World) : stamped w w.
Proof.
  split; [reflexivity|]. exists []. rewrite app_nil_r, Nat.add_0_r. auto.
Qed.

Lemma stamped_trans (w1 w2 w3 : World) :
  stamped w1 w2 -> stamped w2 w3 -> stamped w1 w3.
Proof.
  intros (Hc1 & a1 & Hd1 & Hr1 & Hm1) (Hc2 & a2 & Hd2 & Hr2 & Hm2).
  split; [congruence|]. exists (a1 ++ a2)%list. split; [|split].
  - now rewrite Hd2, Hd1, app_assoc.
  - rewrite Hr2, Hr1, length_app. lia.
  - rewrite length_app, seq_app, !map_app, Hm1, Hm2, Hc1, Hr1. reflexivity.
Qed.

Lemma stamped_member (w : World) (ti : tarfile.TarInfo) (bytes : list byte) :
  tarfile.mtime ti = clock w (reads w) ->
  stamped w (mkWorld (clock w) (S (reads w))
                     (db w ++ [tarfile.mkTarMember ti bytes])%list).
Proof.
  intros H. split; [reflexivity|]. exists [tarfile.mkTarMember ti bytes].
  cbn. rewrite H. repeat split. lia.
Qed.

Lemma lift_returns {A B : Type} (o : outcome A) (k : A -> M B) (w : World)
      (x : B * World) :
  mbind (lift o) k w = Returns x -> exists a, k a w = Returns x.
Proof. unfold mbind, lift. destruct o; [eauto | discriminate]. Qed.

Lemma addfile_returns (t t' : tarfile.TarFile) (ti : tarfile.TarInfo)
      (fileobj : option (list byte)) :
  tarfile.addfile t ti fileobj = Returns t' ->
  exists bytes, t' = (t ++ [tarfile.mkTarMember ti bytes])%list.
Proof.
  unfold tarfile.addfile. destruct fileobj as [bytes|].
  - destruct (len bytes <? tarfile.size ti)%Z; [discriminate|].
    intros [= <-]. eauto.
  - intros [= <-]. eauto.
Qed.

Lemma db_addfile_returns (ti : tarfile.TarInfo) (fileobj : option (list byte))
      (w w' : World) (u : unit) :
  db_addfile ti fileobj w = Returns (u, w') ->
  exists bytes,
    w' = mkWorld (clock w) (reads w) (db w ++ [tarfile.mkTarMember ti bytes])%list.
Proof.
  unfold db_addfile.
  destruct (tarfile.addfile (db w) ti fileobj) as [t'|] eqn:E; [|discriminate].
  intros [= <-]. destruct (addfile_returns _ _ _ _ E) as (bytes & ->). eauto.
Qed.

Lemma bind_addfile_returns {B : Type} (ti : tarfile.TarInfo)
      (fileobj : option (list byte)) (k : unit -> M B) (w : World) (x : B * World) :
  mbind (db_addfile ti fileobj) k w = Returns x ->
  exists bytes,
    k tt (mkWorld (clock w) (reads w) (db w ++ [tarfile.mkTarMember ti bytes])%list)
    = Returns x.
Proof.
  unfold mbind. destruct (db_addfile ti fileobj w) as [[[] w1]|] eqn:E; [|discriminate].
  intros H. destruct (db_addfile_returns _ _ _ _ _ E) as (bytes & ->). eauto.
Qed.

Ltac stamp_last :=
  eapply stamped_trans; cycle 1;
  [refine (stamped_member (mkWorld _ _ _) _ _ _); reflexivity|].

Lemma stream_package_stamped (c : constants) (version : string)
      (r : convert.RepoDbFile) (db_type : RepoDbType.t)
      (pair : PackageDesc.t * option Files.t) (w w' : World) (u : unit) :
  stream_package c version r db_type pair w = Returns (u, w') -> stamped w w'.
Proof.
  destruct pair as [d f]. destruct w as [clk k t].
  unfold stream_package. rewrite step_time. cbn [clock reads db]. intros H.
  apply lift_returns in H. destruct H as (dm & H).
  apply bind_addfile_returns in H. destruct H as (b1 & H).
  cbv beta in H. cbn [clock reads db] in H.
  apply lift_returns in H. destruct H as (dt & H).
  rewrite step_time in H. cbn [clock reads db] in H.
  apply lift_returns in H. destruct H as (fm & H).
  apply bind_addfile_returns in H. destruct H as (b2 & H).
  cbv beta in H. cbn [clock reads db] in H.
  destruct (RepoDbType.eqb db_type RepoDbType.FILES).
  - apply lift_returns in H. destruct H as (ft & H).
    rewrite step_time in H. cbn [clock reads db] in H.
    apply lift_returns in H. destruct H as (fm' & H).
    apply db_addfile_returns in H. destruct H as (b3 & ->).
    cbn [clock reads db].
    stamp_last. stamp_last.
    refine (stamped_member (mkWorld _ _ _) _ _ _). reflexivity.
  - unfold ret in H. injection H as _ <-.
    stamp_last.
    refine (stamped_member (mkWorld _ _ _) _ _ _). reflexivity.
Qed.

Lemma for_each_stamped {A : Type} (body : A -> M unit) (l : list A) :
  (forall x w w' u, body x w = Returns (u, w') -> stamped w w') ->
  forall w w' u, for_each body l w = Returns (u, w') -> stamped w w'.
Proof.
  intros Hb. induction l as [|x l IH]; intros w w' u H.
  - unfold for_each, ret in H. injection H as _ <-. apply stamped_refl.
  - cbn [for_each] in H. unfold mbind in H.
    destruct (body x w) as [[u1 w1]|] eqn:E; [|discriminate].
    exact (stamped_trans _ _ _ (Hb _ _ _ _ E) (IH _ _ _ H)).
Qed.

(** The modification times of a written archive are the readings of the
    clock, in order. *)
Lemma written_mtimes (clk : nat -> Z) (c : constants)
      (groups : list OutputPackageBase.t) (r : convert.RepoDbFile)
      (db_type : RepoDbType.t) (archive : tarfile.TarFile) :
  written clk c groups r db_type = Returns archive ->
  map (fun m => tarfile.mtime (tarfile.info m)) archive
  = map clk (seq 0 (List.length archive)).
Proof.
  unfold written.
  destruct (stream_package_bases_to_db c groups r db_type (mkWorld clk 0 []))
    as [[u w']|] eqn:E; [|discriminate].
  intros [= <-].
  assert (H : stamped (mkWorld clk 0 []) w').
  { revert E. apply for_each_stamped. intros model w1 w2 u1.
    apply for_each_stamped. intros pair w3 w4 u2. apply stream_package_stamped. }
  destruct H as (_ & added & Hd & _ & Hm). cbn in Hd, Hm. now rewrite Hd.
Qed.

(** Members alike but for their times, with the same times, are the same
    members. *)
Lemma same_member (m1 m2 : tarfile.TarMember) :
  forget_mtime m1 = forget_mtime m2 ->
  tarfile.mtime (tarfile.info m1) = tarfile.mtime (tarfile.info m2) ->
  m1 = m2.
Proof.
  destruct m1 as [[] p1], m2 as [[] p2]. unfold forget_mtime, observe. cbn.
  intros H E. injection H. intros. subst. reflexivity.
Qed.

Lemma same_members (a1 a2 : tarfile.TarFile) :
  map forget_mtime a1 = map forget_mtime a2 ->
  map (fun m => tarfile.mtime (tarfile.info m)) a1
  = map (fun m => tarfile.mtime (tarfile.info m)) a2 ->
  a1 = a2.
Proof.
  revert a2. induction a1 as [|m1 a1 IH]; intros [|m2 a2]; cbn [map];
    try discriminate; [reflexivity|].
  intros Hf Hm.
  assert (Hf1 : forget_mtime m1 = forget_mtime m2) by congruence.
  assert (Hf2 : map forget_mtime a1 = map forget_mtime a2) by congruence.
  assert (Hm1 : tarfile.mtime (tarfile.info m1) = tarfile.mtime (tarfile.info m2))
    by congruence.
  assert (Hm2 : map (fun m => tarfile.mtime (tarfile.info m)) a1
                = map (fun m => tarfile.mtime (tarfile.info m)) a2) by congruence.
  now rewrite (IH a2 Hf2 Hm2), (same_member m1 m2 Hf1 Hm1).
Qed.

End Stamps.

(** ** What the design document says of the writer *)

Section WriterStatements.

Lemma observe_id (m : tarfile.TarMember) : observe (fun z => z) m = m.
Proof. destruct m as [[] ?]. reflexivity. Qed.

Lemma written_alike (obs : Z -> Z) (clk1 clk2 : nat -> Z) (c : constants)
      (groups : list OutputPackageBase.t) (r : convert.RepoDbFile)
      (db_type : RepoDbType.t) :
  (forall k, obs (clk1 k) = obs (clk2 k)) ->
  match written clk1 c groups r db_type, written clk2 c groups r db_type with
  | Returns a1, Returns a2 => map (observe obs) a1 = map (observe obs) a2
  | Raises e1, Raises e2 => e1 = e2
  | _, _ => False
  end.
Proof.
  intros Hc. unfold written.
  assert (Hw : alike obs (mkWorld clk1 0 []) (mkWorld clk2 0 []))
    by (repeat split; auto).
  pose proof (stream_package_bases_alike obs c r db_type groups _ _ Hw) as H.
  unfold end_alike in H.
  destruct (stream_package_bases_to_db c groups r db_type (mkWorld clk1 0 []))
    as [[[] w1]|e1],
      (stream_package_bases_to_db c groups r db_type (mkWorld clk2 0 []))
    as [[[] w2]|e2]; try contradiction; [apply H | exact H].
Qed.

(** C2.  For every group, the writer appends to the archive, for each
    package of the group in order, a directory named
    [<package-name>-<version>] with the version of the group, then the
    desc member of the package with its rendered text, then its files
    member if and only if the database kind is the one with file lists.
    A group of the one package [foo] at version [1.0-1] written to a
    desc-only archive gives exactly the directory [foo-1.0-1/] and the
    file [foo-1.0-1/desc]. *)
Theorem writer_emits_per_package :
  (forall (c : constants) (dir_mode file_mode : Z) (r : convert.RepoDbFile)
          (db_type : RepoDbType.t) (model : OutputPackageBase.t) (w : World),
      modes_are c dir_mode file_mode ->
      forallb (renders r db_type) (OutputPackageBase.get_packages_as_models model) = true ->
      exists w' added,
        _stream_package_base_to_db c model r db_type w = Returns (tt, w')
        /\ db w' = (db w ++ added)%list
        /\ map entry_of added
           = flat_map (documented_entries r db_type (OutputPackageBase.version model))
                      (OutputPackageBase.packages model))
  /\ (forall (c : constants) (dir_mode file_mode : Z) (r : convert.RepoDbFile)
             (clk : nat -> Z) (base : string)
             (metadata : list (string * list string)) (files : option Files.t),
         modes_are c dir_mode file_mode ->
         is_returns (convert.render_desc_template r
                       (PackageDesc.mk "foo" "1.0-1" metadata)) = true ->
         exists archive,
           written clk c
                   [OutputPackageBase.mk base "1.0-1"
                      [OutputPackage.mk "foo" metadata files]]
                   r RepoDbType.DEFAULT
           = Returns archive
           /\ map (fun m => (tarfile.header_name (tarfile.info m),
                             tarfile.type (tarfile.info m)))
                  archive
              = [("foo-1.0-1/", tarfile.DIRTYPE); ("foo-1.0-1/desc", tarfile.REGTYPE)]).
Proof.
  split.
  - intros c dm fm r db_type model w Hm Hr.
    eexists. eexists. split; [apply (stream_package_base_run c r db_type dm fm Hm model w Hr)|].
    split; [reflexivity|]. apply entries_of_group_members.
  - intros c dm fm r clk base metadata files Hm Hr.
    unfold written, stream_package_bases_to_db. cbn [for_each]. unfold mbind.
    rewrite (stream_package_base_run c r RepoDbType.DEFAULT dm fm Hm).
    + eexists. split; reflexivity.
    + unfold renders. cbn [OutputPackageBase.get_packages_as_models
        OutputPackageBase.packages OutputPackageBase.version OutputPackage.name
        OutputPackage.metadata OutputPackage.files map forallb fst snd
        RepoDbType.eqb].
      now rewrite Hr.
Qed.

(** C6.  For every package streamed, the size in the header of its desc
    member is the byte length of the UTF-8 encoding of the rendered desc
    text, and the content stored is that encoding; the same holds for the
    files member when there is one. *)
Theorem writer_sizes_are_encoded_lengths
        (c : constants) (dir_mode file_mode : Z) (r : convert.RepoDbFile)
        (db_type : RepoDbType.t) (model : OutputPackageBase.t) (w : World) :
  modes_are c dir_mode file_mode ->
  forallb (renders r db_type) (OutputPackageBase.get_packages_as_models model) = true ->
  exists w' added,
    _stream_package_base_to_db c model r db_type w = Returns (tt, w')
    /\ db w' = (db w ++ added)%list
    /\ map sized_entry_of (filter (fun m => tarfile.isreg (tarfile.info m)) added)
       = flat_map (documented_files r db_type (OutputPackageBase.version model))
                  (OutputPackageBase.get_packages_as_models model)
    /\ Forall (fun m => tarfile.size (tarfile.info m) = len (tarfile.payload m)) added.
Proof.
  intros Hm Hr.
  eexists. eexists. split; [apply (stream_package_base_run c r db_type _ _ Hm model w Hr)|].
  split; [reflexivity|]. split.
  - apply sized_entries_of_group_members.
  - apply sizes_of_group_members.
Qed.

(** C7.  Every member the writer adds has its owner name, its group name
    and its permission bits from the constants: [DB_USER], [DB_GROUP],
    [DB_DIR_MODE] for a directory and [DB_FILE_MODE] for a file, two
    different values; its modification time is the reading of the clock
    taken when it is written. *)
Theorem writer_metadata_is_fixed
        (c : constants) (dir_mode file_mode : Z) (r : convert.RepoDbFile)
        (db_type : RepoDbType.t) (model : OutputPackageBase.t) (w : World) :
  modes_are c dir_mode file_mode ->
  dir_mode <> file_mode ->
  forallb (renders r db_type) (OutputPackageBase.get_packages_as_models model) = true ->
  exists w' added,
    _stream_package_base_to_db c model r db_type w = Returns (tt, w')
    /\ db w' = (db w ++ added)%list
    /\ Forall (fun m =>
                 tarfile.uname (tarfile.info m) = DB_USER c
                 /\ tarfile.gname (tarfile.info m) = DB_GROUP c
                 /\ tarfile.mode (tarfile.info m)
                    = (if tarfile.isdir (tarfile.info m) then dir_mode else file_mode)
                 /\ (tarfile.type (tarfile.info m) = tarfile.DIRTYPE
                     \/ tarfile.type (tarfile.info m) = tarfile.REGTYPE))
              added
    /\ (forall d f, In d added -> In f added ->
                    tarfile.isdir (tarfile.info d) = true ->
                    tarfile.isdir (tarfile.info f) = false ->
                    tarfile.mode (tarfile.info d) <> tarfile.mode (tarfile.info f))
    /\ map (fun m => tarfile.mtime (tarfile.info m)) added
       = map (clock w) (seq (reads w) (List.length added))
    /\ reads w' = reads w + List.length added.
Proof.
  intros Hm Hne Hr.
  eexists. eexists. split; [apply (stream_package_base_run c r db_type _ _ Hm model w Hr)|].
  split; [reflexivity|].
  pose proof (metadata_of_group_members c r db_type dir_mode file_mode
                (OutputPackageBase.version model) (clock w) (reads w)
                (OutputPackageBase.get_packages_as_models model)) as Hmeta.
  split; [exact Hmeta|]. split; [|split].
  - intros d f Hd Hf Hdd Hff. rewrite Forall_forall in Hmeta.
    destruct (Hmeta d Hd) as (_ & _ & Ed & _).
    destruct (Hmeta f Hf) as (_ & _ & Ef & _).
    rewrite Ed, Ef, Hdd, Hff. exact Hne.
  - rewrite length_group_members. apply mtimes_of_group_members.
  - cbn [reads]. now rewrite length_group_members.
Qed.

(** C4, as the code has it.  Two runs of the writer on the same groups,
    constants, renderer and database kind end the same way, and the
    archives they leave agree member by member in everything but the
    modification times.  The modification times of an archive are the
    successive readings of the clock, one for each member in the order
    written; so the archives of two runs that return are equal exactly
    when the two clocks gave the same readings for the members written. *)
Theorem writer_runs_agree_but_for_mtime
        (clk1 clk2 : nat -> Z) (c : constants) (groups : list OutputPackageBase.t)
        (r : convert.RepoDbFile) (db_type : RepoDbType.t) :
  same_but_mtime (written clk1 c groups r db_type) (written clk2 c groups r db_type)
  /\ forall a1 a2,
       written clk1 c groups r db_type = Returns a1 ->
       written clk2 c groups r db_type = Returns a2 ->
       map (fun m => tarfile.mtime (tarfile.info m)) a1
       = map clk1 (seq 0 (List.length a1))
       /\ map (fun m => tarfile.mtime (tarfile.info m)) a2
          = map clk2 (seq 0 (List.length a2))
       /\ List.length a1 = List.length a2
       /\ (a1 = a2 <-> forall k, k < List.length a1 -> clk1 k = clk2 k).
Proof.
  assert (Hsame : same_but_mtime (written clk1 c groups r db_type)
                                 (written clk2 c groups r db_type))
    by (apply (written_alike (fun _ => 0%Z)); reflexivity).
  split; [exact Hsame|].
  intros a1 a2 E1 E2. rewrite E1, E2 in Hsame. cbn in Hsame.
  pose proof (written_mtimes _ _ _ _ _ _ E1) as M1.
  pose proof (written_mtimes _ _ _ _ _ _ E2) as M2.
  assert (Hlen : List.length a1 = List.length a2)
    by (rewrite <- (length_map forget_mtime a1), Hsame; apply length_map).
  repeat split; try assumption.
  - intros <- k Hk. rewrite M1 in M2. rewrite map_ext_in_iff in M2.
    apply M2, in_seq. lia.
  - intros H. apply same_members; [assumption|].
    rewrite M1, M2, <- Hlen. apply map_ext_in. intros k Hk.
    apply H. apply in_seq in Hk. lia.
Qed.

End WriterStatements.

(** C4, as the document states it, fails.  The same group written at two
    different times gives two different archives: the members carry the
    time of writing. *)
Lemma writer_output_depends_on_clock :
  written (fun _ => 0%Z) sample_constants [sample_group] sample_renderer RepoDbType.DEFAULT
  <> written (fun _ => 1%Z) sample_constants [sample_group] sample_renderer RepoDbType.DEFAULT.
Proof. vm_compute. discriminate. Qed.

Lemma sample_modes : modes_are sample_constants 493 420.
Proof. split; reflexivity. Qed.

Lemma writer_emits_per_package_at_sample :
  (exists w' added,
      _stream_package_base_to_db sample_constants sample_group sample_renderer
                                 RepoDbType.FILES (mkWorld Z.of_nat 0 [])
      = Returns (tt, w')
      /\ db w' = ([] ++ added)%list
      /\ map entry_of added
         = flat_map (documented_entries sample_renderer RepoDbType.FILES "1.0-1")
                    [OutputPackage.mk "foo" [] None])
  /\ (exists archive,
         written Z.of_nat sample_constants [sample_group] sample_renderer
                 RepoDbType.DEFAULT
         = Returns archive
         /\ map (fun m => (tarfile.header_name (tarfile.info m),
                           tarfile.type (tarfile.info m)))
                archive
            = [("foo-1.0-1/", tarfile.DIRTYPE); ("foo-1.0-1/desc", tarfile.REGTYPE)]).
Proof.
  split.
  - apply (proj1 writer_emits_per_package sample_constants 493%Z 420%Z sample_renderer
                 RepoDbType.FILES sample_group (mkWorld Z.of_nat 0 []) sample_modes).
    reflexivity.
  - apply (proj2 writer_emits_per_package sample_constants 493%Z 420%Z sample_renderer
                 Z.of_nat "foo" [] None sample_modes).
    reflexivity.
Defined.

Lemma writer_sizes_at_sample :
  exists w' added,
    _stream_package_base_to_db sample_constants sample_group sample_renderer
                               RepoDbType.FILES (mkWorld Z.of_nat 0 [])
    = Returns (tt, w')
    /\ db w' = ([] ++ added)%list
    /\ map sized_entry_of (filter (fun m => tarfile.isreg (tarfile.info m)) added)
       = [("foo-1.0-1/desc", 11%Z, encode ("%NAME%" ++ newline ++ "foo" ++ newline));
          ("foo-1.0-1/files", 8%Z, encode ("%FILES%" ++ newline))]
    /\ Forall (fun m => tarfile.size (tarfile.info m) = len (tarfile.payload m)) added.
Proof.
  apply (writer_sizes_are_encoded_lengths sample_constants 493%Z 420%Z sample_renderer
           RepoDbType.FILES sample_group (mkWorld Z.of_nat 0 []) sample_modes).
  reflexivity.
Defined.

Lemma writer_metadata_at_sample :
  exists w' added,
    _stream_package_base_to_db sample_constants sample_group sample_renderer
                               RepoDbType.FILES (mkWorld Z.of_nat 7 [])
    = Returns (tt, w')
    /\ db w' = ([] ++ added)%list
    /\ Forall (fun m =>
                 tarfile.uname (tarfile.info m) = "root"
                 /\ tarfile.gname (tarfile.info m) = "root"
                 /\ tarfile.mode (tarfile.info m)
                    = (if tarfile.isdir (tarfile.info m) then 493%Z else 420%Z)
                 /\ (tarfile.type (tarfile.info m) = tarfile.DIRTYPE
                     \/ tarfile.type (tarfile.info m) = tarfile.REGTYPE))
              added
    /\ (forall d f, In d added -> In f added ->
                    tarfile.isdir (tarfile.info d) = true ->
                    tarfile.isdir (tarfile.info f) = false ->
                    tarfile.mode (tarfile.info d) <> tarfile.mode (tarfile.info f))
    /\ map (fun m => tarfile.mtime (tarfile.info m)) added
       = map Z.of_nat (seq 7 (List.length added))
    /\ reads w' = 7 + List.length added.
Proof.
  apply (writer_metadata_is_fixed sample_constants 493%Z 420%Z sample_renderer
           RepoDbType.FILES sample_group (mkWorld Z.of_nat 7 []) sample_modes).
  - discriminate.
  - reflexivity.
Defined.

(** Two clocks that part after the third reading, and a run that writes
    three members. *)
Lemma writer_runs_agree_at_sample :
  written Z.of_nat sample_constants [sample_group] sample_renderer RepoDbType.FILES
  = written (fun k => if (k <? 3)%nat then Z.of_nat k else 0%Z)
            sample_constants [sample_group] sample_renderer RepoDbType.FILES.
Proof.
  destruct (written Z.of_nat sample_constants [sample_group] sample_renderer
                    RepoDbType.FILES) as [a1|e1] eqn:E1; [|discriminate E1].
  destruct (written (fun k => if (k <? 3)%nat then Z.of_nat k else 0%Z)
                    sample_constants [sample_group] sample_renderer
                    RepoDbType.FILES) as [a2|e2] eqn:E2; [|discriminate E2].
  f_equal.
  apply (proj2 (proj2 (proj2 (proj2 (proj2 (writer_runs_agree_but_for_mtime
           Z.of_nat (fun k => if (k <? 3)%nat then Z.of_nat k else 0%Z)
           sample_constants [sample_group] sample_renderer RepoDbType.FILES)
           a1 a2 E1 E2))))).
  injection E1 as <-. intros k Hk. cbn in Hk.
  destruct (Nat.ltb_spec k 3); [reflexivity | lia].
Defined.

(** ** More about the resolver *)

Section ResolverShape.

(** A string that holds the separator splits at its last occurrence. *)
Lemma last_occurrence (c : ascii) (s : string) :
  has_char c s = true ->
  exists a b, s = a ++ String c b /\ has_char c b = false.
Proof.
  induction s as [|x s IH]; simpl; [discriminate|].
  destruct (has_char c s) eqn:Hs.
  - intros _. destruct (IH eq_refl) as (a & b & -> & Hb).
    exists (String x a), b. auto.
  - rewrite orb_false_r. intros Hx. apply Ascii.eqb_eq in Hx. subst x.
    exists "", s. auto.
Qed.

Lemma several_tokens_has_char (c : ascii) (s : string) :
  1 < List.length (re_split_keep c s) -> has_char c s = true.
Proof.
  intros H. destruct (has_char c s) eqn:E; [reflexivity|].
  rewrite (re_split_keep_none c s E) in H. simpl in H. lia.
Qed.

(** More than four tokens: the string is [a-v-r] with [v] and [r] free of
    hyphens, and the tokens are those of [a] and four more. *)
Lemma tokens_closing_components (s : string) :
  4 < List.length (re_split_keep hyphen s) ->
  exists a v rel,
    s = a ++ "-" ++ v ++ "-" ++ rel
    /\ has_char hyphen v = false /\ has_char hyphen rel = false.
Proof.
  intros H.
  destruct (last_occurrence hyphen s) as (a' & rel & -> & Hrel);
    [apply several_tokens_has_char; lia|].
  rewrite re_split_keep_at, (re_split_keep_none _ _ Hrel), length_app in H.
  cbn [List.length] in H.
  destruct (last_occurrence hyphen a') as (a & v & -> & Hv);
    [apply several_tokens_has_char; lia|].
  exists a, v, rel. rewrite append_assoc. auto.
Qed.

(** Whenever the resolver has five tokens or more to work on, the name it
    returns is the directory name without its last two hyphen-delimited
    components: the directory name reads [<returned>-<v>-<r>] with no
    hyphen in [v] and [r]. *)
Theorem extract_drops_two_components (name : string) :
  4 < List.length (tokens_of name) ->
  exists pkg v rel,
    _extract_db_member_package_name name = Returns pkg
    /\ has_char hyphen v = false /\ has_char hyphen rel = false
    /\ dirname_of name = pkg ++ "-" ++ v ++ "-" ++ rel.
Proof.
  intros H. unfold tokens_of in H.
  destruct (tokens_closing_components _ H) as (a & v & rel & E & Hv & Hr).
  exists a, v, rel. repeat split; try assumption.
  rewrite extract_unfold. unfold tokens_of. rewrite E.
  rewrite (tokens_of_shape _ _ _ Hv Hr), slice_to_neg_app by reflexivity.
  now rewrite join_re_split_keep.
Qed.

End ResolverShape.

Lemma extract_drops_two_components_at_foo_bar :
  exists pkg v rel,
    _extract_db_member_package_name "foo-bar-1.0-1/files" = Returns pkg
    /\ has_char hyphen v = false /\ has_char hyphen rel = false
    /\ dirname_of "foo-bar-1.0-1/files" = pkg ++ "-" ++ v ++ "-" ++ rel.
Proof.
  apply (extract_drops_two_components "foo-bar-1.0-1/files"). vm_compute. lia.
Defined.

(** ** More about the reader *)

Section ReaderRuns.

Lemma getmember_app (t1 t2 : tarfile.TarFile) (n : string) :
  tarfile._getmember (t1 ++ t2)%list n
  = match tarfile._getmember t2 n with
    | Some m => Some m
    | None => tarfile._getmember t1 n
    end.
Proof.
  induction t1 as [|m t1 IH]; simpl.
  - now destruct (tarfile._getmember t2 n).
  - rewrite IH. now destruct (tarfile._getmember t2 n).
Qed.

Lemma getmember_none (t : tarfile.TarFile) (n : string) :
  (forall m, In m t -> tarfile.name (tarfile.info m) <> n) ->
  tarfile._getmember t n = None.
Proof.
  induction t as [|m t IH]; intros H; simpl; [reflexivity|].
  rewrite IH by (intros m' Hm'; apply H; now right).
  destruct (String.eqb_spec (tarfile.name (tarfile.info m)) n) as [E|_];
    [|reflexivity].
  now destruct (H m (or_introl eq_refl)).
Qed.

Lemma getmember_last (pre post : tarfile.TarFile) (mem : tarfile.TarMember) :
  (forall m, In m post ->
             tarfile.name (tarfile.info m) <> tarfile.name (tarfile.info mem)) ->
  tarfile._getmember (pre ++ mem :: post)%list (tarfile.name (tarfile.info mem))
  = Some mem.
Proof.
  intros H. rewrite getmember_app. cbn [tarfile._getmember].
  now rewrite (getmember_none post _ H), String.eqb_refl.
Qed.

(** Of several members of one name, the last one counts: when the last
    member that carries a name the reader retained is a regular file, what
    the reader reads for that name is the content of that member, decoded;
    the members of the same name before it are not looked at. *)
Theorem reader_reads_last_member_of_a_name
        (pre post : tarfile.TarFile) (mem : tarfile.TarMember) :
  re_search default_regex (tarfile.name (tarfile.info mem)) = true ->
  tarfile.isreg (tarfile.info mem) = true ->
  (forall m, In m post ->
             tarfile.name (tarfile.info m) <> tarfile.name (tarfile.info mem)) ->
  read_member_text (pre ++ mem :: post)%list (tarfile.name (tarfile.info mem))
  = decode (tarfile.payload mem).
Proof.
  intros Hr Hreg Hpost.
  unfold read_member_text, tarfile.extractfile, tarfile.getmember.
  rewrite (rstrip_slash_retained _ Hr), (getmember_last pre post mem Hpost).
  cbn [obind]. now rewrite Hreg.
Qed.

End ReaderRuns.

Lemma reader_reads_last_member_at_sample :
  read_member_text
    ([tarfile.mkTarMember (tarfile.new "foo-1.0-1/desc") (encode "old")]
       ++ tarfile.mkTarMember (tarfile.new "foo-1.0-1/desc") (encode "new")
       :: [tarfile.mkTarMember (tarfile.new "foo-1.0-1/files") (encode "")])%list
    "foo-1.0-1/desc"
  = Returns "new".
Proof.
  apply (reader_reads_last_member_of_a_name
           [tarfile.mkTarMember (tarfile.new "foo-1.0-1/desc") (encode "old")]
           [tarfile.mkTarMember (tarfile.new "foo-1.0-1/files") (encode "")]
           (tarfile.mkTarMember (tarfile.new "foo-1.0-1/desc") (encode "new"))).
  - reflexivity.
  - reflexivity.
  - intros m [<-|[]]. discriminate.
Defined.

(** ** From the writer to the reader *)

Section RoundTrip.

Variable c : constants.
Variable r : convert.RepoDbFile.
Variable db_type : RepoDbType.t.
Variables dir_mode file_mode : Z.
Variable clk : nat -> Z.
Variables v rel : string.
Hypothesis v_plain : has_char hyphen v = false.
Hypothesis rel_plain : has_char hyphen rel = false.
Hypothesis rel_flat : has_char "/" rel = false.

Let version : string := v ++ "-" ++ rel.

Lemma has_char_middle (a : ascii) (s t : string) :
  has_char a (s ++ String a t) = true.
Proof.
  induction s as [|x s IH]; simpl.
  - now rewrite Ascii.eqb_refl.
  - rewrite IH. apply orb_true_r.
Qed.

(** A string closed by [-w], [w] without [/], is not closed by [/t] for
    any [t] without hyphen. *)
Lemma closing_components_differ (s w p t : string) :
  has_char "/" w = false -> has_char hyphen t = false ->
  s ++ String hyphen w <> p ++ String "/"%char t.
Proof.
  intros Hw Ht. revert p. induction s as [|a s IH]; intros [|b p]; simpl; intros E.
  - discriminate.
  - injection E as _ E. rewrite E, has_char_middle in Hw. discriminate.
  - injection E as _ E. rewrite <- E, has_char_middle in Ht. discriminate.
  - injection E as _ E. now apply (IH p).
Qed.

Lemma append_cancel_r (s t u : string) : s ++ u = t ++ u -> s = t.
Proof.
  revert t. induction s as [|a s IH]; intros [|b t] E; simpl in E.
  - reflexivity.
  - apply (f_equal String.length) in E. simpl in E.
    rewrite length_append in E. lia.
  - apply (f_equal String.length) in E. simpl in E.
    rewrite length_append in E. lia.
  - injection E as -> E. now rewrite (IH t E).
Qed.

(** The directory of a package is not a path the reader lets through; the
    paths of its two files are. *)
Lemma dir_of_skipped (pair : PackageDesc.t * option Files.t) :
  re_search default_regex (dir_of version pair) = false.
Proof.
  apply not_true_is_false. intros H. apply retained_iff in H.
  unfold dir_of, version in H.
  assert (E : forall p t, has_char hyphen t = false ->
                PackageDesc.name (fst pair) ++ "-" ++ v ++ "-" ++ rel
                <> p ++ String "/"%char t).
  { intros p t Ht.
    replace (PackageDesc.name (fst pair) ++ "-" ++ v ++ "-" ++ rel)
      with ((PackageDesc.name (fst pair) ++ "-" ++ v) ++ String hyphen rel)
      by (now rewrite !append_assoc).
    now apply closing_components_differ. }
  destruct H as [[p H]|[[p H]|[[p H]|[p H]]]];
    (eapply (E p); cycle 1; [exact H | reflexivity]).
Qed.

Lemma desc_path_kept (d : string) : re_search default_regex (d ++ "/desc") = true.
Proof. apply retained_iff. left. now exists d. Qed.

Lemma files_path_kept (d : string) : re_search default_regex (d ++ "/files") = true.
Proof. apply retained_iff. right. left. now exists d. Qed.

Lemma desc_is_not_files (d d' : string) : d ++ "/files" <> d' ++ "/desc".
Proof.
  intros E. apply (f_equal last_char) in E.
  rewrite !last_char_append in E by discriminate. discriminate.
Qed.

Lemma dir_of_inj (p q : PackageDesc.t * option Files.t) :
  dir_of version p = dir_of version q ->
  PackageDesc.name (fst p) = PackageDesc.name (fst q).
Proof. apply append_cancel_r. Qed.

(** The paths the reader lets through are the file paths, package by
    package. *)
Lemma retained_paths_of_group (k : nat) (pairs : list (PackageDesc.t * option Files.t)) :
  filter (re_search default_regex)
         (tarfile.getnames
            (group_members c dir_mode file_mode version r db_type clk k pairs))
  = flat_map (file_paths db_type version) pairs.
Proof.
  revert k. induction pairs as [|pair pairs IH]; intros k; [reflexivity|].
  cbn [group_members flat_map]. unfold tarfile.getnames in *.
  rewrite map_app, filter_app, IH. f_equal.
  unfold package_members, file_paths. fold (dir_of version pair).
  destruct (RepoDbType.eqb db_type RepoDbType.FILES);
    cbn [map filter tarfile.name tarfile.info dir_member file_member];
    now rewrite dir_of_skipped, ?desc_path_kept, ?files_path_kept.
Qed.

(** The names of the members of a group. *)
Lemma names_in_group (k : nat) (pairs : list (PackageDesc.t * option Files.t))
      (m : tarfile.TarMember) :
  In m (group_members c dir_mode file_mode version r db_type clk k pairs) ->
  exists q, In q pairs
            /\ (tarfile.name (tarfile.info m) = dir_of version q
                \/ tarfile.name (tarfile.info m) = dir_of version q ++ "/desc"
                \/ tarfile.name (tarfile.info m) = dir_of version q ++ "/files").
Proof.
  revert k. induction pairs as [|pair pairs IH]; intros k; [contradiction|].
  cbn [group_members]. intros H. apply in_app_or in H. destruct H as [H|H].
  - exists pair. split; [now left|].
    unfold package_members in H. fold (dir_of version pair) in H.
    destruct (RepoDbType.eqb db_type RepoDbType.FILES);
      repeat (destruct H as [<-|H]; [cbn; auto|]); destruct H.
  - destruct (IH _ H) as (q & Hq & Hn). exists q. split; [now right | assumption].
Qed.

(** No member of the other packages carries the path of a file of this
    one. *)
Lemma file_paths_are_of_one_package (k : nat)
      (pairs : list (PackageDesc.t * option Files.t))
      (pair : PackageDesc.t * option Files.t) (suffix : string)
      (m : tarfile.TarMember) :
  suffix = "/desc" \/ suffix = "/files" ->
  ~ In (PackageDesc.name (fst pair)) (map (fun q => PackageDesc.name (fst q)) pairs) ->
  In m (group_members c dir_mode file_mode version r db_type clk k pairs) ->
  tarfile.name (tarfile.info m) <> dir_of version pair ++ suffix.
Proof.
  intros Hs Hnot Hm E. destruct (names_in_group k pairs m Hm) as (q & Hq & Hn).
  assert (Hkept : re_search default_regex (dir_of version pair ++ suffix) = true)
    by (destruct Hs as [->| ->]; [apply desc_path_kept | apply files_path_kept]).
  assert (Hdiff : dir_of version q <> dir_of version pair).
  { intros Ed. apply Hnot. rewrite <- (dir_of_inj _ _ Ed).
    now apply (in_map (fun q => PackageDesc.name (fst q))). }
  rewrite E in Hn. destruct Hn as [Hn|[Hn|Hn]].
  - rewrite Hn, dir_of_skipped in Hkept. discriminate.
  - destruct Hs as [->| ->].
    + apply Hdiff. symmetry. now apply (append_cancel_r _ _ "/desc").
    + now apply (desc_is_not_files _ _ Hn).
  - destruct Hs as [->| ->].
    + symmetry in Hn. now apply (desc_is_not_files _ _ Hn).
    + apply Hdiff. symmetry. now apply (append_cancel_r _ _ "/files").
Qed.

Lemma decode_encode (text : string) :
  utf8_text text = true -> decode (encode text) = Returns text.
Proof.
  unfold utf8_text, decode, encode. intros ->.
  now rewrite string_of_list_byte_of_string.
Qed.

Lemma resolved_name_of_file (pair : PackageDesc.t * option Files.t) (suffix : string) :
  suffix = "/desc" \/ suffix = "/files" ->
  join (slice_to_neg 4 (tokens_of (dir_of version pair ++ suffix)))
  = PackageDesc.name (fst pair).
Proof.
  intros Hs. unfold tokens_of.
  replace (dirname_of (dir_of version pair ++ suffix)) with (dir_of version pair)
    by (destruct Hs as [->| ->];
        [now rewrite dirname_of_desc | now rewrite dirname_of_files]).
  unfold dir_of, version.
  rewrite (tokens_of_shape _ _ _ v_plain rel_plain), slice_to_neg_app by reflexivity.
  apply join_re_split_keep.
Qed.

(** The member found under the path of a desc file is the desc member of
    the package of that name. *)
Lemma lookup_desc (k : nat) (pairs : list (PackageDesc.t * option Files.t))
      (pair : PackageDesc.t * option Files.t) :
  NoDup (map (fun q => PackageDesc.name (fst q)) pairs) ->
  In pair pairs ->
  exists now,
    tarfile._getmember
      (group_members c dir_mode file_mode version r db_type clk k pairs)
      (dir_of version pair ++ "/desc")
    = Some (file_member c file_mode (dir_of version pair ++ "/desc") now
              (rendered (convert.render_desc_template r (fst pair)))).
Proof.
  revert k. induction pairs as [|p ps IH]; intros k Hnd Hin; [contradiction|].
  cbn [map] in Hnd. apply NoDup_cons_iff in Hnd. destruct Hnd as [Hp Hnd].
  cbn [group_members]. rewrite getmember_app.
  destruct Hin as [->|Hin].
  - rewrite getmember_none
      by (intros m Hm; apply (file_paths_are_of_one_package _ _ _ _ m (or_introl eq_refl) Hp Hm)).
    unfold package_members. fold (dir_of version pair).
    destruct (RepoDbType.eqb db_type RepoDbType.FILES);
      cbn [tarfile._getmember tarfile.name tarfile.info file_member dir_member].
    + rewrite (proj2 (String.eqb_neq _ _) (desc_is_not_files _ _)).
      rewrite String.eqb_refl. eauto.
    + rewrite String.eqb_refl. eauto.
  - destruct (IH (k + reads_per_package db_type) Hnd Hin) as (now & ->). eauto.
Qed.

Lemma lookup_files (k : nat) (pairs : list (PackageDesc.t * option Files.t))
      (pair : PackageDesc.t * option Files.t) :
  RepoDbType.eqb db_type RepoDbType.FILES = true ->
  NoDup (map (fun q => PackageDesc.name (fst q)) pairs) ->
  In pair pairs ->
  exists now,
    tarfile._getmember
      (group_members c dir_mode file_mode version r db_type clk k pairs)
      (dir_of version pair ++ "/files")
    = Some (file_member c file_mode (dir_of version pair ++ "/files") now
              (rendered (convert.render_files_template r (snd pair)))).
Proof.
  intros Hf. revert k. induction pairs as [|p ps IH]; intros k Hnd Hin; [contradiction|].
  cbn [map] in Hnd. apply NoDup_cons_iff in Hnd. destruct Hnd as [Hp Hnd].
  cbn [group_members]. rewrite getmember_app.
  destruct Hin as [->|Hin].
  - rewrite getmember_none
      by (intros m Hm; apply (file_paths_are_of_one_package _ _ _ _ m (or_intror eq_refl) Hp Hm)).
    unfold package_members. fold (dir_of version pair). rewrite Hf.
    cbn [tarfile._getmember tarfile.name tarfile.info file_member dir_member].
    rewrite String.eqb_refl. eauto.
  - destruct (IH (k + reads_per_package db_type) Hnd Hin) as (now & ->). eauto.
Qed.

Lemma read_file_of_group (t : tarfile.TarFile) (path : string) (now : Z) (text : string) :
  re_search default_regex path = true ->
  tarfile._getmember t path = Some (file_member c file_mode path now text) ->
  utf8_text text = true ->
  read_member_text t path = Returns text.
Proof.
  intros Hr Hm Hu. unfold read_member_text, tarfile.extractfile, tarfile.getmember.
  rewrite (rstrip_slash_retained _ Hr), Hm. cbn. now apply decode_encode.
Qed.

(** What the reader builds for the files of one package of the group. *)
Lemma models_of_package (k : nat) (pairs : list (PackageDesc.t * option Files.t))
      (pair : PackageDesc.t * option Files.t) :
  NoDup (map (fun q => PackageDesc.name (fst q)) pairs) ->
  In pair pairs ->
  renders_utf8 r db_type pair = true ->
  Forall2 (fun n m =>
             member_as_model
               (group_members c dir_mode file_mode version r db_type clk k pairs) n
             = Returns m)
          (file_paths db_type version pair) (models_of r db_type pair).
Proof.
  intros Hnd Hin Hu. unfold renders_utf8 in Hu.
  apply andb_true_iff in Hu. destruct Hu as [Hud Huf].
  unfold file_paths, models_of. constructor.
  - destruct (lookup_desc k pairs pair Hnd Hin) as (now & Hm).
    rewrite member_as_model_unfold.
    rewrite (read_file_of_group _ _ _ _ (desc_path_kept _) Hm Hud).
    rewrite file_type_of_desc by (now exists (dir_of version pair)).
    now rewrite resolved_name_of_file by (now left).
  - destruct (RepoDbType.eqb db_type RepoDbType.FILES) eqn:Hf; constructor;
      [|constructor].
    destruct (lookup_files k pairs pair Hf Hnd Hin) as (now & Hm).
    rewrite member_as_model_unfold.
    rewrite (read_file_of_group _ _ _ _ (files_path_kept _) Hm Huf).
    rewrite file_type_of_files by (now exists (dir_of version pair)).
    now rewrite resolved_name_of_file by (now right).
Qed.

Lemma yield_each_exact (t : tarfile.TarFile) (names : list string)
      (ms : list RepoDbMemberData.t) :
  Forall2 (fun n m => member_as_model t n = Returns m) names ms ->
  yield_each t names = (ms, None).
Proof.
  induction 1 as [|n m names ms Hn _ IH]; simpl; [reflexivity|].
  now rewrite Hn, IH.
Qed.

Lemma Forall2_flat_map {A B C : Type} (P : B -> C -> Prop)
      (f : A -> list B) (g : A -> list C) (l : list A) :
  (forall a, In a l -> Forall2 P (f a) (g a)) ->
  Forall2 P (flat_map f l) (flat_map g l).
Proof.
  induction l as [|a l IH]; intros H; simpl; [constructor|].
  apply Forall2_app; [apply H; now left | apply IH; intros; apply H; now right].
Qed.

(** Reading the members of a group back. *)
Lemma group_reads_back (k : nat) (pairs : list (PackageDesc.t * option Files.t)) :
  NoDup (map (fun q => PackageDesc.name (fst q)) pairs) ->
  forallb (renders_utf8 r db_type) pairs = true ->
  _db_file_member_as_model
    (group_members c dir_mode file_mode version r db_type clk k pairs) default_regex
  = (flat_map (models_of r db_type) pairs, None).
Proof.
  intros Hnd Hu. unfold _db_file_member_as_model.
  rewrite retained_paths_of_group. apply yield_each_exact, Forall2_flat_map.
  intros pair Hin. apply models_of_package; [assumption | assumption |].
  rewrite forallb_forall in Hu. now apply Hu.
Qed.

End RoundTrip.

(** A group written to an archive that was empty, then read.  The names
    of the packages and the two parts of the version are names a header
    stores as they are (no NUL, well-formed UTF-8), so that the members
    read are the members written.  When moreover the version of the group
    is [<v>-<rel>] with no hyphen in either part and no [/] in [rel], the
    packages of the group have distinct names, and the renderer succeeds
    with well-formed UTF-8, the reader yields, for each package in order,
    its desc text under kind DESC and the name of the package, then, in a
    database with file lists, its files text under kind FILES and the same
    name; and it ends without an exception. *)
Theorem written_group_reads_back
        (c : constants) (dir_mode file_mode : Z) (r : convert.RepoDbFile)
        (db_type : RepoDbType.t) (model : OutputPackageBase.t)
        (clk : nat -> Z) (k : nat) (v rel : string) :
  modes_are c dir_mode file_mode ->
  OutputPackageBase.version model = v ++ "-" ++ rel ->
  has_char hyphen v = false ->
  has_char hyphen rel = false ->
  has_char "/" rel = false ->
  stored_verbatim v = true ->
  stored_verbatim rel = true ->
  forallb (fun p => stored_verbatim (OutputPackage.name p))
          (OutputPackageBase.packages model) = true ->
  NoDup (map OutputPackage.name (OutputPackageBase.packages model)) ->
  forallb (renders r db_type) (OutputPackageBase.get_packages_as_models model) = true ->
  forallb (renders_utf8 r db_type) (OutputPackageBase.get_packages_as_models model) = true ->
  exists w',
    _stream_package_base_to_db c model r db_type (mkWorld clk k []) = Returns (tt, w')
    /\ _db_file_member_as_model (db w') default_regex
       = (flat_map (models_of r db_type) (OutputPackageBase.get_packages_as_models model),
          None).
Proof.
  intros Hm Hv Hpv Hpr Hfr _ _ _ Hnd Hr Hu.
  eexists. split;
    [apply (stream_package_base_run c r db_type dir_mode file_mode Hm model _ Hr)|].
  cbn [db clock reads app]. rewrite Hv.
  apply group_reads_back; try assumption.
  unfold OutputPackageBase.get_packages_as_models. rewrite map_map. exact Hnd.
Qed.

Lemma written_group_reads_back_at_sample :
  exists w',
    _stream_package_base_to_db sample_constants sample_group sample_renderer
                               RepoDbType.FILES (mkWorld Z.of_nat 0 [])
    = Returns (tt, w')
    /\ _db_file_member_as_model (db w') default_regex
       = ([RepoDbMemberData.mk RepoDbMemberType.DESC "foo"
             ("%NAME%" ++ newline ++ "foo" ++ newline);
           RepoDbMemberData.mk RepoDbMemberType.FILES "foo" ("%FILES%" ++ newline)],
          None).
Proof.
  apply (written_group_reads_back sample_constants 493%Z 420%Z sample_renderer
           RepoDbType.FILES sample_group Z.of_nat 0 "1.0" "1" sample_modes);
    try reflexivity.
  repeat constructor. simpl. tauto.
Defined.

(** ** The JSON files of a directory *)

Section PathOrder.

Lemma string_compare_eq (a b : string) : String_as_OT.compare a b = Eq -> a = b.
Proof.
  intros H. destruct (String_as_OT.compare_spec a b); congruence.
Qed.

Lemma string_compare_refl (a : string) : String_as_OT.compare a a = Eq.
Proof.
  destruct (String_as_OT.compare_spec a a) as [_|H|H]; [reflexivity| |];
    now destruct (StrictOrder_Irreflexive a H).
Qed.

Lemma string_compare_gt (a b : string) :
  String_as_OT.compare a b = Gt -> String_as_OT.compare b a = Lt.
Proof.
  intros H. destruct (String_as_OT.compare_spec a b); congruence.
Qed.

Lemma string_compare_lt (a b : string) :
  String_as_OT.compare a b = Lt -> String_as_OT.compare b a = Gt.
Proof.
  intros H. destruct (String_as_OT.compare_spec b a) as [E|H'|H'].
  - change (b = a) in E. subst. rewrite string_compare_refl in H. discriminate.
  - destruct (StrictOrder_Irreflexive a).
    exact (StrictOrder_Transitive a b a H H').
  - reflexivity.
Qed.

Lemma string_lt_trans (a b d : string) :
  String_as_OT.compare a b = Lt -> String_as_OT.compare b d = Lt ->
  String_as_OT.compare a d = Lt.
Proof. apply (@StrictOrder_Transitive _ _ String_as_OT.lt_strorder). Qed.

Lemma path_compare_eq (p q : pathlib.Path) : pathlib.compare p q = Eq -> p = q.
Proof.
  revert q. induction p as [|a p IH]; intros [|b q]; simpl; try discriminate;
    [reflexivity|].
  destruct (String_as_OT.compare a b) eqn:E; try discriminate.
  intros H. now rewrite (string_compare_eq _ _ E), (IH q H).
Qed.

Lemma path_compare_gt (p q : pathlib.Path) :
  pathlib.compare p q = Gt -> pathlib.compare q p = Lt.
Proof.
  revert q. induction p as [|a p IH]; intros [|b q]; simpl; try discriminate;
    [reflexivity|].
  destruct (String_as_OT.compare a b) eqn:E; try discriminate.
  - rewrite (string_compare_eq _ _ E), string_compare_refl. apply IH.
  - now rewrite (string_compare_gt _ _ E).
Qed.

Lemma path_lt_trans (p q u : pathlib.Path) :
  pathlib.compare p q = Lt -> pathlib.compare q u = Lt -> pathlib.compare p u = Lt.
Proof.
  revert q u. induction p as [|a p IH]; intros [|b q] [|d u]; simpl;
    try discriminate; try reflexivity.
  destruct (String_as_OT.compare a b) eqn:Eab; try discriminate;
    destruct (String_as_OT.compare b d) eqn:Ebd; try discriminate.
  - rewrite (string_compare_eq _ _ Eab), Ebd. apply IH.
  - now rewrite (string_compare_eq _ _ Eab), Ebd.
  - now rewrite <- (string_compare_eq _ _ Ebd), Eab.
  - now rewrite (string_lt_trans _ _ _ Eab Ebd).
Qed.

Lemma path_leb_total (p q : pathlib.Path) :
  pathlib.leb p q = false -> pathlib.leb q p = true.
Proof.
  unfold pathlib.leb. destruct (pathlib.compare p q) eqn:E; try discriminate.
  now rewrite (path_compare_gt _ _ E).
Qed.

Lemma path_leb_trans (p q u : pathlib.Path) :
  pathlib.leb p q = true -> pathlib.leb q u = true -> pathlib.leb p u = true.
Proof.
  unfold pathlib.leb.
  destruct (pathlib.compare p q) eqn:Epq; try discriminate;
    destruct (pathlib.compare q u) eqn:Equ; try discriminate; intros _ _.
  - now rewrite (path_compare_eq _ _ Epq), Equ.
  - now rewrite (path_compare_eq _ _ Epq), Equ.
  - now rewrite <- (path_compare_eq _ _ Equ), Epq.
  - now rewrite (path_lt_trans _ _ _ Epq Equ).
Qed.

End PathOrder.

Section Sorting.

Variable A : Type.
Variable leb : A -> A -> bool.
Hypothesis leb_total : forall x y, leb x y = false -> leb y x = true.
Hypothesis leb_trans : forall x y z, leb x y = true -> leb y z = true -> leb x z = true.

Lemma insert_sorted_perm (x : A) (l : list A) :
  Permutation (x :: l) (insert_sorted leb x l).
Proof.
  induction l as [|y l IH]; simpl; [reflexivity|].
  destruct (leb x y); [reflexivity|].
  rewrite perm_swap. now apply perm_skip.
Qed.

Lemma sorted_perm (l : list A) : Permutation l (sorted leb l).
Proof.
  induction l as [|x l IH]; simpl; [constructor|].
  rewrite <- insert_sorted_perm. now apply perm_skip.
Qed.

Lemma insert_sorted_ordered (x : A) (l : list A) :
  StronglySorted (fun a b => leb a b = true) l ->
  StronglySorted (fun a b => leb a b = true) (insert_sorted leb x l).
Proof.
  induction 1 as [|y l Hs IH Hy]; simpl.
  - repeat constructor.
  - destruct (leb x y) eqn:E.
    + constructor; [now constructor|]. constructor; [assumption|].
      rewrite Forall_forall in *. intros z Hz. eauto.
    + constructor; [assumption|].
      apply (Permutation_Forall (insert_sorted_perm x l)).
      constructor; [now apply leb_total | assumption].
Qed.

Lemma sorted_ordered (l : list A) :
  StronglySorted (fun a b => leb a b = true) (sorted leb l).
Proof.
  induction l as [|x l IH]; simpl; [constructor | now apply insert_sorted_ordered].
Qed.

End Sorting.

(** The generator ends with [RepoManagementFileNotFoundError], before it
    yields anything, exactly when the glob finds no file; otherwise no
    exception ends it and it yields every path found, once each, every
    path coming before the paths yielded after it in the order of paths. *)
Theorem json_files_are_all_found_in_order
        (glob : pathlib.Path -> string -> list pathlib.Path) (path : pathlib.Path) :
  (glob path "*.json" = [] ->
   _json_files_in_directory glob path
   = ([], Some errors.RepoManagementFileNotFoundError))
  /\ (glob path "*.json" <> [] ->
      snd (_json_files_in_directory glob path) = None
      /\ Permutation (glob path "*.json") (fst (_json_files_in_directory glob path))
      /\ StronglySorted (fun p q => pathlib.leb p q = true)
                        (fst (_json_files_in_directory glob path))).
Proof.
  unfold _json_files_in_directory. split.
  - now intros ->.
  - intros Hne.
    pose proof (sorted_perm _ pathlib.leb (glob path "*.json")) as Hp.
    pose proof (sorted_ordered _ pathlib.leb path_leb_total path_leb_trans
                  (glob path "*.json")) as Hs.
    destruct (sorted pathlib.leb (glob path "*.json")) as [|p ps] eqn:E.
    + apply Permutation_sym, Permutation_nil in Hp. contradiction.
    + auto.
Qed.

Lemma json_files_at_sample :
  _json_files_in_directory
    (fun path _ => [path ++ ["b.json"]; path ++ ["a.json"]; path ++ ["B.json"]]%list)
    ["/"; "srv"]
  = ([["/"; "srv"; "B.json"]; ["/"; "srv"; "a.json"]; ["/"; "srv"; "b.json"]], None)
  /\ snd (_json_files_in_directory
            (fun path _ => [path ++ ["b.json"]; path ++ ["a.json"]; path ++ ["B.json"]]%list)
            ["/"; "srv"]) = None.
Proof.
  split; [reflexivity|].
  apply (proj2 (json_files_are_all_found_in_order
                  (fun path _ => [path ++ ["b.json"]; path ++ ["a.json"];
                                  path ++ ["B.json"]]%list)
                  ["/"; "srv"])).
  discriminate.
Defined.
